(** * RFdiffusion inference driver: a shallow embedding of
      [scripts/run_inference.py]

    The development follows the script top-down: Python built-ins the
    script relies on ([range], [int], [max], the format spec [05d],
    [os.path.dirname]/[basename], [re.match] with the script's one
    pattern), then the tensors the script manipulates, the world the
    script runs in (random generators, the sampler object, the file
    system, a trace of the calls made to the external collaborators),
    and finally [main] itself: the resume scan, the batch loop, the
    reverse-diffusion loop and the output stage. *)

From Stdlib Require Import ZArith Lia DecimalString DecimalN Ascii.
From stdpp Require Import gmap strings list.

Open Scope Z_scope.

(** ** Python built-ins *)

Module Py.

(** [range(start, stop, step)]: CPython computes the length first and
    then enumerates [start + k*step].  [step = 0] raises [ValueError] in
    Python; the script only uses the literal steps [1] and [-1], and the
    model gives the empty range there. *)

Definition range_len (start stop step : Z) : Z :=
  if 0 <? step then
    (if start <? stop then (stop - start - 1) / step + 1 else 0)
  else if step <? 0 then
    (if stop <? start then (start - stop - 1) / (- step) + 1 else 0)
  else 0.

Fixpoint range_from (start step : Z) (n : nat) : list Z :=
  match n with
  | O => []
  | S n' => start :: range_from (start + step) step n'
  end.

Definition range (start stop step : Z) : list Z :=
  range_from start step (Z.to_nat (range_len start stop step)).

(** Characters and decimal digits.  File names are modelled as strings
    of 8-bit characters; [\d] and [int] are therefore the ASCII digits. *)

Definition digit_value (c : ascii) : option Z :=
  let code := Z.of_N (N_of_ascii c) in
  if (48 <=? code) && (code <=? 57) then Some (code - 48) else None.

Definition is_digit (c : ascii) : bool :=
  match digit_value c with Some _ => true | None => false end.

Definition newline : ascii := "010"%char.

Definition is_newline (c : ascii) : bool :=
  if decide (c = newline) then true else false.

(** [int(s)] on a string of decimal digits (the only strings the script
    passes are the digit runs captured by [\d+], which lie within one
    component of a path and so stay far below the length at which
    [int] refuses a string). *)

Definition int_of_digits (ds : list ascii) : Z :=
  fold_left (fun acc c => 10 * acc + default 0 (digit_value c)) ds 0.

Definition int (s : string) : Z :=
  int_of_digits (String.list_ascii_of_string s).

(** [max(l)]: [None] stands for the [ValueError] on an empty list. *)

Definition max (l : list Z) : option Z :=
  match l with
  | [] => None
  | x :: l' => Some (fold_left Z.max l' x)
  end.

(** The format spec [05d]: sign-aware zero padding to width 5. *)

Definition decimal (n : N) : string :=
  NilZero.string_of_uint (N.to_uint n).

Fixpoint zeros (n : nat) : string :=
  match n with
  | O => ""
  | S n' => String "0"%char (zeros n')
  end.

Definition format_05d (z : Z) : string :=
  let ds := decimal (Z.abs_N z) in
  if z <? 0
  then "-" +:+ zeros (4 - String.length ds) +:+ ds
  else zeros (5 - String.length ds) +:+ ds.

(** [os.path.dirname] and [os.path.basename] (posixpath): split at the
    last slash; the head loses its trailing slashes unless it consists
    of slashes only. *)

Definition is_slash (c : ascii) : bool :=
  if decide (c = "/"%char) then true else false.

(** [span p l] splits [l] after its longest prefix satisfying [p]. *)
Fixpoint span (p : ascii -> bool) (l : list ascii) : list ascii * list ascii :=
  match l with
  | [] => ([], [])
  | c :: l' =>
      if p c then let '(a, b) := span p l' in (c :: a, b) else ([], l)
  end.

Definition split_path (path : string) : list ascii * list ascii :=
  (* reversed tail (after the last slash), reversed raw head (up to and
     including the last slash) *)
  span (fun c => negb (is_slash c)) (rev (String.list_ascii_of_string path)).

Definition basename (path : string) : string :=
  String.string_of_list_ascii (rev (fst (split_path path))).

Definition dirname (path : string) : string :=
  let head := snd (split_path path) in
  let stripped := snd (span is_slash head) in
  String.string_of_list_ascii
    (rev (match stripped with [] => head | _ => stripped end)).

(** [re.match(r".*_(\d+)\.pdb$", e)], returning [m.groups()[0]].

    [$] matches at the end of the string or just before a final newline;
    [.] does not match a newline; the digit run is delimited on the left
    by the underscore, so the greedy [.*] leaves exactly one way to
    match.  The matcher reads the string from its end. *)

Fixpoint strip_prefix (p l : list ascii) : option (list ascii) :=
  match p, l with
  | [], _ => Some l
  | c :: p', c' :: l' => if decide (c = c') then strip_prefix p' l' else None
  | _ :: _, [] => None
  end.

Definition match_index_rev (r : list ascii) : option (list ascii) :=
  r1 ← strip_prefix (rev (String.list_ascii_of_string ".pdb")) r;
  let '(ds, r2) := span is_digit r1 in
  r3 ← strip_prefix ["_"%char] r2;
  if bool_decide (ds <> []) && forallb (fun c => negb (is_newline c)) r3
  then Some (rev ds) else None.

(** What the pattern means, in words: [e] is [a _ d .pdb], possibly
    followed by one newline, where [a] has no newline and [d] is a
    non-empty run of digits. *)
Definition matches_index (e d : string) : Prop :=
  exists a nl : string,
    e = a +:+ "_" +:+ d +:+ ".pdb" +:+ nl
    /\ (nl = "" \/ nl = String newline "")
    /\ Forall (fun c => c <> newline) (String.list_ascii_of_string a)
    /\ d <> ""
    /\ Forall (fun c => is_digit c = true) (String.list_ascii_of_string d).

Definition re_match_index (e : string) : option string :=
  let r := rev (String.list_ascii_of_string e) in
  let body := match r with
              | c :: r' => if is_newline c then r' else r
              | [] => r
              end in
  String.string_of_list_ascii <$> match_index_rev body.

(** Reading digits from a given accumulator; a formatted index without
    its sign; strings without a slash.  (Used to state facts about the
    functions above.) *)
Definition int_from (acc : Z) (ds : list ascii) : Z :=
  fold_left (fun acc c => 10 * acc + default 0 (digit_value c)) ds acc.

Definition unsigned (s : string) : string :=
  match s with
  | String c s' => if decide (c = "-"%char) then s' else s
  | EmptyString => s
  end.

Definition no_slash (s : string) : Prop :=
  Forall (fun c => c <> "/"%char) (String.list_ascii_of_string s).

End Py.


(** ** Tensors

    Only the tensor operations the script applies are modelled.  A
    sequence tensor of shape (L, 22) is a list of rows; an integer
    tensor of rank at most one is either a 0-dimensional scalar or a
    vector, which is what [squeeze] distinguishes. *)

Module Torch.

Section Argmax.
Context {scalar : Type} (gtb : scalar -> scalar -> bool).

(** [torch.argmax(row)]: index of the first maximal entry. *)
Fixpoint argmax_from (best_i : Z) (best : scalar) (i : Z)
    (row : list scalar) : Z :=
  match row with
  | [] => best_i
  | v :: row' =>
      if gtb v best then argmax_from i v (i + 1) row'
      else argmax_from best_i best (i + 1) row'
  end.

(** Reducing over an empty dimension raises ([None]). *)
Definition argmax_row (row : list scalar) : option Z :=
  match row with
  | [] => None
  | v :: row' => Some (argmax_from 0 v 1 row')
  end.

(** [torch.argmax(t, dim=-1)] on a rank-2 tensor. *)
Definition argmax (t : list (list scalar)) : option (list Z) :=
  mapM argmax_row t.
End Argmax.

(** [t == c] with a Python integer [c]. *)
Definition eq_scalar (t : list Z) (c : Z) : list bool :=
  map (fun v => v =? c) t.

(** [torch.where(cond, x, y)] with a Python scalar [x] broadcast
    against the tensor [y]. *)
Definition where_scalar_l (cond : list bool) (x : Z) (y : list Z) : list Z :=
  zip_with (fun (c : bool) v => if c then x else v) cond y.

(** [torch.where(cond, True, False)]. *)
Definition where_bool (cond : list bool) : list bool :=
  map (fun c : bool => if c then true else false) cond.

Inductive itensor : Type :=
| Scalar0 (z : Z)
| Vector (l : list Z).

(** [t.squeeze()] on a rank-1 tensor: a dimension of size one is
    dropped, any other is kept. *)
Definition squeeze (t : list Z) : itensor :=
  match t with
  | [z] => Scalar0 z
  | _ => Vector t
  end.

Definition ones_like (t : itensor) : itensor :=
  match t with
  | Scalar0 _ => Scalar0 1
  | Vector l => Vector (map (fun _ => 1) l)
  end.

(** [t[mask] = v] with a rank-1 boolean mask.  Indexing a 0-dimensional
    tensor with a rank-1 mask, or a vector with a mask of another
    length, raises [IndexError] ([None]). *)
Definition masked_assign (t : itensor) (mask : list bool) (v : Z)
    : option itensor :=
  match t with
  | Scalar0 _ => None
  | Vector l =>
      if decide (length l = length mask)
      then Some (Vector (zip_with (fun (m : bool) x => if m then v else x) mask l))
      else None
  end.

(** [torch.stack(l)] along a new leading dimension: an empty list
    raises [RuntimeError] ([None]).  (The entries are assumed to share
    one shape, as the sampler produces them.) *)
Definition stack {A : Type} (l : list A) : option (list A) :=
  match l with
  | [] => None
  | _ => Some l
  end.

(** [torch.flip(t, [0])]. *)
Definition flip0 {A : Type} (t : list A) : list A := rev t.

End Torch.

(** ** The world of the script *)

Module Inference.

(** [sampler.inf_conf]: the fields the script reads. *)
Record InfConf : Type := {
  design_startnum : Z;
  output_prefix : string;
  num_designs : Z;
  cautious : bool;
  final_step : Z;
  write_trajectory : bool
}.

(** [conf.inference]: the fields read through [conf]. *)
Record ConfInference : Type := {
  deterministic : bool;
  seed : Z
}.

Section Driver.
(** [X]: structure tensors (residues x atoms x 3); [scalar]: tensor
    entries; [Gen]: the joint state of the three random generators;
    [Hid]: whatever else the sampler object holds; [Err]: exceptions
    raised inside the sampler. *)
Context {X scalar Gen Hid Err : Type}.

Definition Seq : Type := list (list scalar).
Definition Plddt : Type := list (list scalar).

Inductive exn : Type :=
| SamplerError (e : Err)
| RuntimeError
| IndexError
| FileNotFoundError
| ValueError.

Inductive outcome (A : Type) : Type :=
| Ok (a : A)
| Raise (e : exn).
Global Arguments Ok {A} a.
Global Arguments Raise {A} e.

(** How a call into the sampler ends. *)
Inductive sampled (A : Type) : Type :=
| Returns (a : A)
| Raises (e : Err).
Global Arguments Returns {A} a.
Global Arguments Raises {A} e.

(** The sampler object: its configuration, its step count (the value
    of [int(sampler.t_step_input)]), and its two methods, which read
    and update the generators and the sampler's own state and may
    raise. *)
Record Sampler : Type := {
  inf_conf : InfConf;
  t_step_input : Z;
  sample_init : Hid -> Gen -> sampled (X * Seq) * Hid * Gen;
  sample_step : Z -> X -> Seq -> Z -> Hid -> Gen ->
                sampled (X * X * Seq * Plddt) * Hid * Gen
}.

(** What [writepdb], [pickle.dump] and [writepdb_multi] receive (the
    chain bookkeeping, resolved configuration, device name and timing
    that travel along are left out). *)
Inductive artifact : Type :=
| PdbFile (xyz : X) (seq : list Z) (bfacts : Torch.itensor)
| TrbFile (plddt : list (list scalar))
| TrajFile (xyz_stack : list X) (bfacts : Torch.itensor)
           (seq : Torch.itensor).

Record filesystem : Type := {
  files : gmap string artifact;
  dirs : gset string
}.

(** Calls that leave the script, in the order they happen. *)
Inductive event : Type :=
| SampleInit (res : sampled (X * Seq))
| SampleStep (t : Z) (x_t : X) (seq_t : Seq) (final : Z)
             (res : sampled (X * X * Seq * Plddt))
| MakeDirs (path : string)
| WriteFile (path : string) (a : artifact).

Record world : Type := {
  rng : Gen;
  sampler_state : Hid;
  fs : filesystem;
  trace : list event
}.

(** Statements of the script: they read and update the world and
    either return or raise; what was done before a raise stays done. *)
Definition M (A : Type) : Type := world -> outcome A * world.

Definition ret {A} (a : A) : M A := fun w => (Ok a, w).

Definition bind {A B} (m : M A) (k : A -> M B) : M B :=
  fun w =>
    match m w with
    | (Ok a, w') => k a w'
    | (Raise e, w') => (Raise e, w')
    end.

Definition raise {A} (e : exn) : M A := fun w => (Raise e, w).

Definition or_raise {A} (e : exn) (o : option A) : M A :=
  match o with
  | Some a => ret a
  | None => raise e
  end.

Definition when (b : bool) (m : M unit) : M unit :=
  if b then m else ret tt.

Fixpoint for_each {A} (l : list A) (body : A -> M unit) : M unit :=
  match l with
  | [] => ret tt
  | a :: l' => bind (body a) (fun _ => for_each l' body)
  end.

(** *** The external collaborators *)

Context (gtb : scalar -> scalar -> bool).
(** [xyz[:, :4]]: the first four atoms of every residue. *)
Context (backbone : X -> X).
(** The generator state reached by seeding all three generators (with
    a seed they accept). *)
Context (seeded : Z -> Gen).
(** [glob.glob(pattern)] on a file system. *)
Context (glob : filesystem -> string -> list string).

Definition make_deterministic (seed : Z) : M unit :=
  fun w =>
    (Ok tt, {| rng := seeded seed; sampler_state := sampler_state w;
               fs := fs w; trace := trace w |}).

(** An exception raised inside the sampler surfaces in the script. *)
Definition surface {A} (res : sampled A) : outcome A :=
  match res with
  | Returns a => Ok a
  | Raises e => Raise (SamplerError e)
  end.

Definition call_sample_init (s : Sampler) : M (X * Seq) :=
  fun w =>
    let '(res, h, g) := sample_init s (sampler_state w) (rng w) in
    (surface res, {| rng := g; sampler_state := h; fs := fs w;
             trace := trace w ++ [SampleInit res] |}).

Definition call_sample_step (s : Sampler) (t : Z) (x_t : X) (seq_t : Seq)
    (final : Z) : M (X * X * Seq * Plddt) :=
  fun w =>
    let '(res, h, g) :=
      sample_step s t x_t seq_t final (sampler_state w) (rng w) in
    (surface res, {| rng := g; sampler_state := h; fs := fs w;
             trace := trace w ++ [SampleStep t x_t seq_t final res] |}).

(** [os.path.exists]: a file or a directory of that name. *)
Definition exists_in (f : filesystem) (path : string) : bool :=
  bool_decide (is_Some (files f !! path)) || bool_decide (path ∈ dirs f).

Definition path_exists (path : string) : M bool :=
  fun w => (Ok (exists_in (fs w) path), w).

(** [os.makedirs(name, exist_ok=True)]: the empty name raises
    [FileNotFoundError]. *)
Definition makedirs (name : string) : M unit :=
  fun w =>
    if decide (name = "") then (Raise FileNotFoundError, w)
    else
      (Ok tt, {| rng := rng w; sampler_state := sampler_state w;
                 fs := {| files := files (fs w);
                          dirs := {[ name ]} ∪ dirs (fs w) |};
                 trace := trace w ++ [MakeDirs name] |}).

Definition write_file (path : string) (a : artifact) : M unit :=
  fun w =>
    (Ok tt, {| rng := rng w; sampler_state := sampler_state w;
               fs := {| files := <[ path := a ]> (files (fs w));
                        dirs := dirs (fs w) |};
               trace := trace w ++ [WriteFile path a] |}).

Definition glob_glob (pattern : string) : M (list string) :=
  fun w => (Ok (glob (fs w) pattern), w).

(** *** [main] *)

Notation "'let*' x ':=' m 'in' k" := (bind m (fun x => k))
  (at level 10, x pattern, m at level 100, k at level 200, only parsing).
Notation "'do' m 'then' k" := (bind m (fun _ => k))
  (at level 10, m at level 100, k at level 200, only parsing).

(** Lines 106-118: the start index, scanned from the existing
    artifacts when the configured one is the sentinel [-1].  (The two
    [print] calls of the scan are left out.) *)
Fixpoint scan_indices (existing : list string) (indices : list Z)
    : list Z :=
  match existing with
  | [] => indices
  | e :: rest =>
      match Py.re_match_index e with
      | None => scan_indices rest indices
      | Some m => scan_indices rest (indices ++ [Py.int m])
      end
  end.

Definition resolve_startnum (s : Sampler) : M Z :=
  let design_startnum := design_startnum (inf_conf s) in
  if design_startnum =? -1 then
    let* existing := glob_glob (output_prefix (inf_conf s) +:+ "*.pdb") in
    let indices := scan_indices existing [-1] in
    let* m := or_raise ValueError (Py.max indices) in
    ret (m + 1)
  else ret design_startnum.

(** The four lists filled by the timestep loop. *)
Record accumulators : Type := {
  denoised_xyz_stack : list X;
  px0_xyz_stack : list X;
  seq_stack : list Seq;
  plddt_stack : list (list scalar)
}.

Definition no_steps : accumulators :=
  {| denoised_xyz_stack := []; px0_xyz_stack := [];
     seq_stack := []; plddt_stack := [] |}.

(** Lines 142-149: the loop over the reverse-diffusion timesteps.
    [plddt[0]] raises [IndexError] on an empty leading dimension. *)
Fixpoint diffusion_loop (s : Sampler) (ts : list Z) (x_t : X) (seq_t : Seq)
    (acc : accumulators) : M accumulators :=
  match ts with
  | [] => ret acc
  | t :: ts' =>
      let* (px0, x_t', seq_t', plddt) :=
        call_sample_step s t x_t seq_t (final_step (inf_conf s)) in
      let* plddt0 := or_raise IndexError (head plddt) in
      diffusion_loop s ts' x_t' seq_t'
        {| px0_xyz_stack := px0_xyz_stack acc ++ [px0];
           denoised_xyz_stack := denoised_xyz_stack acc ++ [x_t'];
           seq_stack := seq_stack acc ++ [seq_t'];
           plddt_stack := plddt_stack acc ++ [plddt0] |}
  end.

Definition timesteps (s : Sampler) : list Z :=
  Py.range (t_step_input s) (final_step (inf_conf s) - 1) (-1).

(** Lines 151-235: flipping the stacks and saving the outputs.  The
    exceptions modelled are those the script's own values decide
    (empty stacks, an empty directory name, tensor shapes); the
    writers, [pickle.dump] and the contig-map lookup are taken to
    succeed. *)
Definition save_outputs (s : Sampler) (out_prefix : string)
    (seq_init : Seq) (acc : accumulators) : M unit :=
  (* Flip order for better visualization in pymol *)
  let* denoised :=
    or_raise RuntimeError (Torch.stack (denoised_xyz_stack acc)) in
  let denoised := Torch.flip0 denoised in
  let* px0 := or_raise RuntimeError (Torch.stack (px0_xyz_stack acc)) in
  let px0 := Torch.flip0 px0 in
  (* For logging -- don't flip *)
  let* plddt := or_raise RuntimeError (Torch.stack (plddt_stack acc)) in
  (* Save outputs *)
  do makedirs (Py.dirname out_prefix) then
  let* _final_seq := or_raise IndexError (last (seq_stack acc)) in
  (* Output glycines, except for motif region *)
  let* am := or_raise IndexError (Torch.argmax gtb seq_init) in
  let* am' := or_raise IndexError (Torch.argmax gtb seq_init) in
  let final_seq := Torch.where_scalar_l (Torch.eq_scalar am 21) 7 am' in
  let bfacts := Torch.ones_like (Torch.squeeze final_seq) in
  (* make bfact=0 for diffused coordinates *)
  let* am'' := or_raise IndexError (Torch.argmax gtb seq_init) in
  let* bfacts := or_raise IndexError
    (Torch.masked_assign bfacts
       (Torch.where_bool (Torch.eq_scalar am'' 21)) 0) in
  let* first := or_raise IndexError (head denoised) in
  do write_file (out_prefix +:+ ".pdb")
    (PdbFile (backbone first) final_seq bfacts) then
  do write_file (out_prefix +:+ ".trb") (TrbFile plddt) then
  when (write_trajectory (inf_conf s))
    (let traj_prefix :=
       Py.dirname out_prefix +:+ "/traj/" +:+ Py.basename out_prefix in
     do makedirs (Py.dirname traj_prefix) then
     do write_file (traj_prefix +:+ "_Xt-1_traj.pdb")
       (TrajFile denoised bfacts (Torch.squeeze final_seq)) then
     write_file (traj_prefix +:+ "_pX0_traj.pdb")
       (TrajFile px0 bfacts (Torch.squeeze final_seq))).

(** Lines 133-235: one design that is not skipped.  Returns the
    accumulators as the loop left them. *)
Definition make_design (s : Sampler) (out_prefix : string)
    : M accumulators :=
  let* (x_init, seq_init) := call_sample_init s in
  (* [torch.clone] copies; the values are the same *)
  let* acc := diffusion_loop s (timesteps s) x_init seq_init no_steps in
  do save_outputs s out_prefix seq_init acc then
  ret acc.

Definition out_prefix_of (s : Sampler) (i_des : Z) : string :=
  output_prefix (inf_conf s) +:+ "_" +:+ Py.format_05d i_des.

(** Lines 121-237: the body of the loop over designs.  [None] is the
    [continue] of the cautious mode. *)
Definition design (conf : ConfInference) (s : Sampler) (i_des : Z)
    : M (option accumulators) :=
  do when (deterministic conf) (make_deterministic (seed conf + i_des)) then
  let out_prefix := out_prefix_of s i_des in
  let* skip := (if cautious (inf_conf s)
                then path_exists (out_prefix +:+ ".pdb")
                else ret false) in
  if (skip : bool) then ret None
  else let* acc := make_design s out_prefix in ret (Some acc).

(** Lines 120-237: the loop over the designs. *)
Definition batch (conf : ConfInference) (s : Sampler) (indices : list Z)
    : M unit :=
  for_each indices (fun i_des => do design conf s i_des then ret tt).

(** Lines 84-237, the sampler being the one [sampler_selector]
    built. *)
Definition main (conf : ConfInference) (s : Sampler) : M unit :=
  do when (deterministic conf) (make_deterministic (seed conf)) then
  let* start := resolve_startnum s in
  batch conf s (Py.range start (start + num_designs (inf_conf s)) 1).

(** The world a design starts in: the one the previous design left,
    with the generators re-seeded in the deterministic mode. *)
Definition reseeded (conf : ConfInference) (i_des : Z) (w : world)
    : world :=
  (when (deterministic conf) (make_deterministic (seed conf + i_des)) w).2.

(** *** Reading a trace *)

Definition res_px0 (r : X * X * Seq * Plddt) : X := r.1.1.1.
Definition res_x_t (r : X * X * Seq * Plddt) : X := r.1.1.2.
Definition res_seq (r : X * X * Seq * Plddt) : Seq := r.1.2.
Definition res_plddt (r : X * X * Seq * Plddt) : Plddt := r.2.

Definition is_step (ev : event) : Prop :=
  match ev with SampleStep _ _ _ _ _ => True | _ => False end.

Definition is_sampler_call (ev : event) : Prop :=
  match ev with
  | SampleInit _ | SampleStep _ _ _ _ _ => True
  | _ => False
  end.

Definition is_fs_effect (ev : event) : Prop :=
  match ev with
  | MakeDirs _ | WriteFile _ _ => True
  | _ => False
  end.

(** The [t] a step was called with, and what it returned. *)
Definition step_time (ev : event) : option Z :=
  match ev with SampleStep t _ _ _ _ => Some t | _ => None end.

Definition step_result (ev : event) : option (X * X * Seq * Plddt) :=
  match ev with SampleStep _ _ _ _ (Returns r) => Some r | _ => None end.

(** The exception a call into the sampler ended with, if it did. *)
Definition raised_in (ev : event) : option Err :=
  match ev with
  | SampleInit (Raises e) | SampleStep _ _ _ _ (Raises e) => Some e
  | _ => None
  end.

(** What a run of the timestep loop appended to the accumulators, in
    terms of the results [rs] of its steps in the order they ran. *)
Definition collected (acc acc' : accumulators)
    (rs : list (X * X * Seq * Plddt)) : Prop :=
  denoised_xyz_stack acc' = denoised_xyz_stack acc ++ map res_x_t rs
  /\ px0_xyz_stack acc' = px0_xyz_stack acc ++ map res_px0 rs
  /\ seq_stack acc' = seq_stack acc ++ map res_seq rs
  /\ exists ps, plddt_stack acc' = plddt_stack acc ++ ps
       /\ map (fun r => head (res_plddt r)) rs = map Some ps.

(** The file-system calls of the output stage of one design, given
    the accumulators, the final sequence, the b-factors and the
    structure at the head of the flipped stack. *)
Definition saved (s : Sampler) (out_prefix : string) (acc : accumulators)
    (final_seq : list Z) (bfacts : Torch.itensor) (first : X)
    : list event :=
  [MakeDirs (Py.dirname out_prefix);
   WriteFile (out_prefix +:+ ".pdb")
     (PdbFile (backbone first) final_seq bfacts);
   WriteFile (out_prefix +:+ ".trb") (TrbFile (plddt_stack acc))]
  ++ (if write_trajectory (inf_conf s) then
        let traj_prefix :=
          Py.dirname out_prefix +:+ "/traj/" +:+ Py.basename out_prefix in
        [MakeDirs (Py.dirname traj_prefix);
         WriteFile (traj_prefix +:+ "_Xt-1_traj.pdb")
           (TrajFile (Torch.flip0 (denoised_xyz_stack acc)) bfacts
              (Torch.squeeze final_seq));
         WriteFile (traj_prefix +:+ "_pX0_traj.pdb")
           (TrajFile (Torch.flip0 (px0_xyz_stack acc)) bfacts
              (Torch.squeeze final_seq))]
      else []).

(** Statements that only touch the file system: they leave the
    generators and the sampler alone, log file-system calls only, and
    never end in a sampler exception. *)
Definition fs_only {A} (m : M A) : Prop :=
  forall w o w', m w = (o, w') ->
    rng w' = rng w /\ sampler_state w' = sampler_state w
    /\ (exists evs, trace w' = trace w ++ evs /\ Forall is_fs_effect evs)
    /\ (forall e, o <> Raise (SamplerError e)).

(** Statements whose outcome does not depend on the world they start
    in. *)
Definition world_blind {A} (m : M A) : Prop :=
  forall w1 w2, (m w1).1 = (m w2).1.

(** The suffixes the resume scan extracts, in the order of the
    artifacts. *)
Definition suffixes (existing : list string) : list Z :=
  omap (fun e => Py.int <$> Py.re_match_index e) existing.

(** A sampler whose methods read nothing but their arguments and the
    random generators: what they return, and the generator state they
    leave, do not depend on the rest of the sampler's state. *)
Definition deterministic_sampler (s : Sampler) : Prop :=
  (forall h1 h2 g,
      (sample_init s h1 g).1.1 = (sample_init s h2 g).1.1
      /\ (sample_init s h1 g).2 = (sample_init s h2 g).2)
  /\ (forall t x q f h1 h2 g,
      (sample_step s t x q f h1 g).1.1 = (sample_step s t x q f h2 g).1.1
      /\ (sample_step s t x q f h1 g).2 = (sample_step s t x q f h2 g).2).

(** A sampler whose steps always return, with a confidence tensor that
    has a leading entry. *)
Definition step_returns (s : Sampler) : Prop :=
  forall t x q f h g, exists px0 x' q' p ps h' g',
    sample_step s t x q f h g = (Returns (px0, x', q', p :: ps), h', g').

(** *** The file system behind a trace *)

(** What a logged call does to the file system. *)
Definition apply_event (f : filesystem) (ev : event) : filesystem :=
  match ev with
  | MakeDirs name => {| files := files f; dirs := {[ name ]} ∪ dirs f |}
  | WriteFile path a => {| files := <[ path := a ]> (files f); dirs := dirs f |}
  | SampleInit _ | SampleStep _ _ _ _ _ => f
  end.

Definition replay (f : filesystem) (evs : list event) : filesystem :=
  fold_left apply_event evs f.

(** The names of the artifacts of one design. *)
Definition traj_prefix_of (s : Sampler) (i_des : Z) : string :=
  Py.dirname (out_prefix_of s i_des) +:+ "/traj/"
    +:+ Py.basename (out_prefix_of s i_des).

Definition design_paths (s : Sampler) (i_des : Z) : list string :=
  [out_prefix_of s i_des +:+ ".pdb";
   out_prefix_of s i_des +:+ ".trb";
   traj_prefix_of s i_des +:+ "_Xt-1_traj.pdb";
   traj_prefix_of s i_des +:+ "_pX0_traj.pdb"].

(** What follows the formatted index in the four names. *)
Definition artifact_suffixes : list string :=
  [".pdb"; ".trb"; "_Xt-1_traj.pdb"; "_pX0_traj.pdb"].

(** The files a list of logged calls writes. *)
Definition written (evs : list event) : list string :=
  omap (fun ev => match ev with WriteFile path _ => Some path | _ => None end)
       evs.

(** Statements that are accounted for by their logged calls: however
    they end, the file system they leave is the one they found with
    these calls replayed, and every file they write has an [allowed]
    name. *)
Definition accounted {A} (allowed : string -> Prop) (m : M A) : Prop :=
  forall w o w', m w = (o, w') ->
    exists evs,
      trace w' = trace w ++ evs
      /\ fs w' = replay (fs w) evs
      /\ Forall allowed (written evs).

(** A run of steps in which every step is given the structure and the
    sequence the step before returned (the first one [x] and [q]), and
    the same [final]; a step that raises is the last. *)
Fixpoint chained (x : X) (q : Seq) (final : Z) (evs : list event) : Prop :=
  match evs with
  | [] => True
  | SampleStep _ x_t seq_t f res :: rest =>
      x_t = x /\ seq_t = q /\ f = final
      /\ match res with
         | Returns r => chained (res_x_t r) (res_seq r) final rest
         | Raises _ => rest = []
         end
  | _ :: _ => False
  end.
End Driver.

End Inference.

(** ** Before the sampler is built: device and configuration path *)

Module Startup.

(** What [torch.cuda] reports: availability, the architectures the build
    supports (strings such as [sm_80]), the number of devices and their
    compute capabilities [(major, minor)]. *)
Record Cuda : Type := {
  is_available : bool;
  get_arch_list : list string;
  device_count : Z;
  get_device_capability : Z -> Z * Z
}.

(** [get_device_name] returns a configured or fallback name (a string)
    or a device index (an integer). *)
Inductive device : Type :=
| Name (name : string)
| Index (dev : Z).

Inductive arch_error : Type :=
| ArchIndexError
| ArchValueError.

(** [10*a+b] for the capability [(a, b)] of a device. *)
Definition capability (cuda : Cuda) (dev : Z) : Z :=
  10 * (get_device_capability cuda dev).1 + (get_device_capability cuda dev).2.

(** [s.split("_")]: the fields between the underscores. *)
Fixpoint split_fields (cur : list ascii) (s : list ascii)
    : list (list ascii) :=
  match s with
  | [] => [rev cur]
  | c :: s' =>
      if decide (c = "_"%char) then rev cur :: split_fields [] s'
      else split_fields (c :: cur) s'
  end.

Definition split_underscore (s : string) : list string :=
  map String.string_of_list_ascii
      (split_fields [] (String.list_ascii_of_string s)).

Section Device.
(** [int(s)] on an arbitrary string; [None] is its [ValueError]. *)
Context (int_of_string : string -> option Z).

(** [int(arch.split("_")[1])]. *)
Definition arch_number (arch : string) : arch_error + Z :=
  match split_underscore arch !! 1%nat with
  | None => inl ArchIndexError
  | Some field =>
      match int_of_string field with
      | None => inl ArchValueError
      | Some n => inr n
      end
  end.

(** The generator handed to [min]: the numbers in order, up to the
    first architecture that raises. *)
Fixpoint arch_numbers (archs : list string) : arch_error + list Z :=
  match archs with
  | [] => inr []
  | arch :: rest =>
      match arch_number arch with
      | inl e => inl e
      | inr n =>
          match arch_numbers rest with
          | inl e => inl e
          | inr ns => inr (n :: ns)
          end
      end
  end.

(** [min(numbers, default=35)]. *)
Definition min_default (ns : list Z) : Z :=
  match ns with
  | [] => 35
  | n :: ns' => fold_left Z.min ns' n
  end.

(** The loop over the devices: the first whose capability reaches
    [min_arch], or the name unchanged. *)
Fixpoint first_capable (cuda : Cuda) (min_arch : Z) (devs : list Z)
    (name : device) : device :=
  match devs with
  | [] => name
  | dev :: rest =>
      let '(a, b) := get_device_capability cuda dev in
      let cur_arch := 10 * a + b in
      if min_arch <=? cur_arch then Index dev
      else first_capable cuda min_arch rest name
  end.

(** Lines 44-65.  [conf] is [None] for the default argument, and the
    configured [inference.device_name] otherwise. *)
Definition get_device_name (cuda : Cuda) (conf : option string)
    : arch_error + device :=
  let name := match conf with Some n => n | None => "auto" end in
  if decide (name = "auto") then
    if is_available cuda then
      match arch_numbers (get_arch_list cuda) with
      | inl e => inl e
      | inr ns =>
          inr (first_capable cuda (min_default ns)
                 (Py.range 0 (device_count cuda) 1) (Name "cpu"))
      end
    else inr (Name "cpu")
  else inr (Name name).
End Device.

Section ConfigPath.
(** Paths as [pathlib] has them, with the operations the function
    uses: [Path(s)], [p / s], [p.exists()]. *)
Context {path : Type}.
Context (Path : string -> path) (join : path -> string -> path)
        (path_exists : path -> bool).
(** [Path()], [Path(__file__).parent], [Path.home()] and
    [os.environ.get("XDG_CONFIG_HOME")]. *)
Context (here script_dir home : path) (xdg_config_home : option string).

Definition candidates : path * path * path :=
  let xdg := match xdg_config_home with
             | Some v => Path v
             | None => join home ".config"
             end in
  (join (join here "config") "inference",
   join (join script_dir "config") "inference",
   join (join xdg "rfdiffusion") "inference").

(** The loop over the candidates, and the return after it. *)
Fixpoint first_existing (ps : list path) (fallback : path) : path :=
  match ps with
  | [] => fallback
  | p :: rest => if path_exists p then p else first_existing rest fallback
  end.

(** Lines 68-77. *)
Definition get_config_path : path :=
  let '(p1, p2, p3) := candidates in
  first_existing [p1; p2; p3] p3.
End ConfigPath.

End Startup.

(** ** A small sampler to run the script on

    Structures are lists of residues, each a list of atom coordinates;
    the generators are a counter; the sampler counts its calls in its
    own state and can be told when to fail, from the number of calls
    made so far and the timestep. *)

Module Demo.
Import Inference.

Definition X : Type := list (list Z).
Definition backbone (x : X) : X := map (take 4) x.
Definition seeded (seed : Z) : Z := seed.

Fixpoint one_hot_from (n : nat) (i c : Z) : list Z :=
  match n with
  | O => []
  | S n' => (if i =? c then 1 else 0) :: one_hot_from n' (i + 1) c
  end.

Definition one_hot (c : Z) : list Z := one_hot_from 22 0 c.

(** Three residues: diffused, a fixed alanine-like category 3,
    diffused. *)
Definition seq0 : list (list Z) := [one_hot 21; one_hot 3; one_hot 21].

Definition x0 (g : Z) : X := [[g; 1; 2; 3; 4]; [5; 6; 7; 8; 9]; [0; 0; 0; 0; 0]].

Definition init (h : nat) (g : Z)
    : @sampled Z (X * list (list Z)) * nat * Z :=
  (Returns (x0 g, seq0), S h, g + 1).

Definition step (fails : nat -> Z -> bool) (t : Z) (x : X)
    (q : list (list Z)) (final : Z) (h : nat) (g : Z)
    : @sampled Z (X * X * list (list Z) * list (list Z)) * nat * Z :=
  if fails h t then (Raises t, S h, g)
  else
    (Returns (map (map (Z.add g)) x, map (map (Z.add t)) x,
         map (fun _ => one_hot (g + t)) q, [[g; t; final]]),
     S h, 7 * g + t).

Definition demo_conf (start : Z) (n : Z) (careful traj : bool) (final : Z)
    : InfConf :=
  {| design_startnum := start; output_prefix := "out/design";
     num_designs := n; cautious := careful; final_step := final;
     write_trajectory := traj |}.

Definition sampler (ic : InfConf) (T : Z) (fails : nat -> Z -> bool)
    : @Sampler X Z Z nat Z :=
  {| inf_conf := ic; t_step_input := T;
     sample_init := init; sample_step := step fails |}.

Definition never (h : nat) (t : Z) : bool := false.

(** Fails at timestep 2 once more than four calls have been made, that
    is, in the second design of a batch of three-step designs. *)
Definition in_second_design (h : nat) (t : Z) : bool :=
  (4 <? Z.of_nat h) && (t =? 2).

(** [glob] on the demo file system: the stored paths that extend the
    pattern's literal prefix and end like its literal suffix. *)
Definition has_suffix (suf path : string) : bool :=
  bool_decide (is_Some (Py.strip_prefix
    (rev (String.list_ascii_of_string suf))
    (rev (String.list_ascii_of_string path)))).

Definition glob (fs : @filesystem X Z) (pattern : string) : list string :=
  match Py.strip_prefix (rev (String.list_ascii_of_string "*.pdb"))
          (rev (String.list_ascii_of_string pattern)) with
  | Some rpre =>
      let pre := String.string_of_list_ascii (rev rpre) in
      filter (fun path => String.prefix pre path && has_suffix ".pdb" path = true)
             (map fst (map_to_list (files fs)))
  | None => []
  end.

Definition empty_fs : @filesystem X Z := {| files := ∅; dirs := ∅ |}.

Definition world0 : @world X Z Z nat Z :=
  {| rng := 0; sampler_state := O; fs := empty_fs; trace := [] |}.

Abbreviation run_design := (design Z.gtb backbone seeded).
Abbreviation run_batch := (batch Z.gtb backbone seeded).
Abbreviation run_main := (main Z.gtb backbone seeded glob).

Definition det : ConfInference := {| deterministic := true; seed := 42 |}.
Definition nondet : ConfInference := {| deterministic := false; seed := 0 |}.

Definition acc_of
    (r : @outcome Z (option (@accumulators X Z)) * @world X Z Z nat Z)
    : @accumulators X Z :=
  match r.1 with Ok (Some a) => a | _ => no_steps end.

(** Three timesteps down to 1, trajectories on, one design. *)
Definition s_ok : @Sampler X Z Z nat Z :=
  sampler (demo_conf 0 1 false true 1) 3 never.
Definition acc_ok := acc_of (run_design nondet s_ok 0 world0).
Definition w_ok := (run_design nondet s_ok 0 world0).2.

(** Resuming, in the cautious mode, after designs 0 and 1. *)
Definition s_resume : @Sampler X Z Z nat Z :=
  sampler (demo_conf (-1) 2 true true 1) 3 never.
Definition w_two := (run_batch det s_resume [0; 1] world0).2.

(** A batch of three whose second design fails at timestep 2. *)
Definition s_fail : @Sampler X Z Z nat Z :=
  sampler (demo_conf 0 3 false true 1) 3 in_second_design.
Definition w_one := (run_batch nondet s_fail [0] world0).2.
Definition w_failed := (run_design nondet s_fail 1 w_one).2.
Definition failed_calls : list (@event X Z Z) :=
  drop (length (trace w_one)) (trace w_failed).

Definition failing_call : @event X Z Z :=
  default (SampleInit (Raises 0)) (failed_calls !! 2%nat).

(** A final step above the initial one. *)
Definition s_bad : @Sampler X Z Z nat Z :=
  sampler (demo_conf 0 1 false false 5) 1 never.

(** The first design of the resumed batch. *)
Definition acc_first := acc_of (run_design det s_resume 0 world0).
Definition w_first := (run_design det s_resume 0 world0).2.

(** An output prefix without a directory. *)
Definition s_flat : @Sampler X Z Z nat Z :=
  sampler {| design_startnum := 0; output_prefix := "design";
             num_designs := 1; cautious := false; final_step := 1;
             write_trajectory := false |} 3 never.

(** No design asked for. *)
Definition s_none : @Sampler X Z Z nat Z :=
  sampler (demo_conf (-1) 0 false true 1) 3 never.

(** [glob] listing the same names in the opposite order. *)
Definition glob_rev (fs : @filesystem X Z) (pattern : string) : list string :=
  rev (glob fs pattern).

(** [int] on the strings of decimal digits, [ValueError] on the others:
    as much of it as the architecture strings below need. *)
Definition int_of_string (s : string) : option Z :=
  match String.list_ascii_of_string s with
  | [] => None
  | ds => if forallb Py.is_digit ds then Some (Py.int s) else None
  end.

(** Two devices, the first below the architectures of the build. *)
Definition cuda_two : Startup.Cuda :=
  {| Startup.is_available := true;
     Startup.get_arch_list := ["sm_50"; "sm_80"; "compute_80"];
     Startup.device_count := 2;
     Startup.get_device_capability :=
       fun dev => if dev =? 0 then (3, 7) else (8, 6) |}.

(** A build whose second architecture string has no underscore, and no
    device. *)
Definition cuda_odd : Startup.Cuda :=
  {| Startup.is_available := true;
     Startup.get_arch_list := ["sm_80"; "sm80"; "sm_x"];
     Startup.device_count := 0;
     Startup.get_device_capability := fun _ => (0, 0) |}.

(** Paths as strings; only the configuration beside the script
    exists. *)
Definition join (p : string) (name : string) : string := p +:+ "/" +:+ name.
Definition beside_script (p : string) : bool :=
  bool_decide (p = "/opt/rfdiffusion/scripts/config/inference").

End Demo.

(** * Properties *)

(** ** Python built-ins *)

Module PyFacts.
Import Py.

Lemma range_from_length start step n : length (range_from start step n) = n.
Proof. revert start. induction n as [|n IH]; intros start; simpl; [done|]. by rewrite IH. Qed.

Lemma range_from_lookup start step n (k : nat) :
  (k < n)%nat -> range_from start step n !! k = Some (start + Z.of_nat k * step).
Proof.
  revert start k. induction n as [|n IH]; intros start k Hk; [lia|].
  destruct k as [|k]; simpl.
  - f_equal. lia.
  - rewrite IH by lia. f_equal. lia.
Qed.

Lemma range_len_down hi lo :
  range_len hi (lo - 1) (-1) = Z.max 0 (hi - lo + 1).
Proof.
  unfold range_len. simpl.
  destruct (Z.ltb_spec (lo - 1) hi).
  - change (- -1) with 1. rewrite Z.div_1_r. lia.
  - lia.
Qed.

Lemma range_len_up lo n :
  range_len lo (lo + n) 1 = Z.max 0 n.
Proof.
  unfold range_len. simpl.
  destruct (Z.ltb_spec lo (lo + n)).
  - rewrite Z.div_1_r. lia.
  - lia.
Qed.

Lemma range_down_length hi lo :
  length (range hi (lo - 1) (-1)) = Z.to_nat (hi - lo + 1).
Proof. unfold range. rewrite range_from_length, range_len_down. lia. Qed.

Lemma range_down_lookup hi lo (k : nat) :
  (k < Z.to_nat (hi - lo + 1))%nat ->
  range hi (lo - 1) (-1) !! k = Some (hi - Z.of_nat k).
Proof.
  intros Hk. unfold range. rewrite range_from_lookup.
  - f_equal. lia.
  - rewrite range_len_down. lia.
Qed.

Lemma range_down_empty hi lo : hi < lo -> range hi (lo - 1) (-1) = [].
Proof.
  intros Hlt. unfold range. rewrite range_len_down.
  replace (Z.to_nat _) with O by lia. done.
Qed.

Lemma range_up_elem lo n i :
  i ∈ range lo (lo + n) 1 <-> lo <= i < lo + n.
Proof.
  unfold range. rewrite range_len_up. split.
  - intros Hin. apply list_elem_of_lookup in Hin as [k Hk].
    assert (Hlt : (k < Z.to_nat (Z.max 0 n))%nat).
    { apply lookup_lt_Some in Hk. by rewrite range_from_length in Hk. }
    rewrite range_from_lookup in Hk by done. inversion Hk. lia.
  - intros Hi. apply list_elem_of_lookup. exists (Z.to_nat (i - lo)).
    rewrite range_from_lookup by lia. f_equal. lia.
Qed.

Lemma span_app p l1 c l2 :
  Forall (fun x => p x = true) l1 -> p c = false ->
  span p (l1 ++ c :: l2) = (l1, c :: l2).
Proof.
  intros Hall Hc. induction Hall as [|x l1 Hx _ IH]; simpl.
  - by rewrite Hc.
  - by rewrite Hx, IH.
Qed.

Lemma span_all p l :
  Forall (fun x => p x = true) l -> span p l = (l, []).
Proof.
  induction 1 as [|x l Hx _ IH]; simpl; [done|]. by rewrite Hx, IH.
Qed.

Lemma span_spec p l a b :
  span p l = (a, b) ->
  l = a ++ b /\ Forall (fun x => p x = true) a /\
  match b with [] => True | c :: _ => p c = false end.
Proof.
  revert a b. induction l as [|x l IH]; intros a b; simpl.
  - intros [= <- <-]. done.
  - destruct (p x) eqn:Hx.
    + destruct (span p l) as [a' b'] eqn:Hsp. intros [= <- <-].
      destruct (IH _ _ eq_refl) as (-> & Ha & Hb). repeat split; auto.
    + intros [= <- <-]. repeat split; auto.
Qed.

Lemma list_ascii_app s1 s2 :
  String.list_ascii_of_string (s1 +:+ s2)
  = String.list_ascii_of_string s1 ++ String.list_ascii_of_string s2.
Proof. induction s1 as [|c s1 IH]; simpl; [done|]. by rewrite IH. Qed.

Lemma is_newline_true c : is_newline c = true <-> c = newline.
Proof. unfold is_newline. case_decide; naive_solver. Qed.


Lemma strip_prefix_spec p l r : strip_prefix p l = Some r <-> l = p ++ r.
Proof.
  revert l. induction p as [|c p IHp]; intros l; simpl.
  - split; [by intros [= ->] | by intros ->].
  - destruct l as [|c' l]; [split; intros; discriminate|].
    case_decide as Hc.
    + subst c'. rewrite IHp. split; [by intros -> | by intros [= ->]].
    + split; [discriminate | intros [= ? _]; congruence].
Qed.

Lemma no_newline_forallb l :
  forallb (fun c => negb (is_newline c)) l = true
  <-> Forall (fun c => c <> newline) l.
Proof.
  rewrite forallb_forall, Forall_forall. setoid_rewrite <- list_elem_of_In.
  split; intros Hl c Hc; specialize (Hl c Hc).
  - intros ->. unfold is_newline in Hl. by case_decide.
  - unfold is_newline. by case_decide.
Qed.

Lemma match_index_rev_spec r d :
  match_index_rev r = Some d <->
  exists a, r = rev (a ++ "_"%char :: d ++ String.list_ascii_of_string ".pdb")
    /\ Forall (fun c => c <> newline) a /\ d <> []
    /\ Forall (fun c => is_digit c = true) d.
Proof.
  unfold match_index_rev. split.
  - intros Hm.
    apply bind_Some in Hm as (r1 & H1 & Hm).
    destruct (span is_digit r1) as [ds r2] eqn:Hsp.
    apply bind_Some in Hm as (r3 & H2 & Hm).
    destruct (bool_decide _ && _) eqn:Hc; [|done]. injection Hm as <-.
    apply andb_true_iff in Hc as [Hne Hnl].
    apply bool_decide_eq_true in Hne. apply no_newline_forallb in Hnl.
    apply strip_prefix_spec in H1, H2.
    apply span_spec in Hsp as (-> & Hds & _). subst r2 r.
    exists (rev r3). repeat split.
    + rewrite !rev_app_distr. simpl. rewrite !rev_app_distr. simpl.
      rewrite !rev_involutive. by rewrite <- !app_assoc.
    + rewrite Forall_forall in *. intros c Hc. apply Hnl.
      apply list_elem_of_In. apply list_elem_of_In in Hc. by apply in_rev.
    + intros Hr. apply Hne. destruct ds; [done|].
      simpl in Hr. by apply app_eq_nil in Hr as [_ ?].
    + rewrite Forall_forall in *. intros c Hc. apply Hds.
      apply list_elem_of_In. apply list_elem_of_In in Hc. by apply in_rev.
  - intros (a & -> & Ha & Hne & Hd).
    rewrite rev_app_distr. simpl. rewrite rev_app_distr. simpl.
    rewrite <- !app_assoc. simpl.
    rewrite (span_app is_digit (rev d) "_"%char (rev a)).
    + simpl.
      rewrite rev_involutive.
      replace (bool_decide (rev d <> [])) with true.
      2:{ symmetry. apply bool_decide_eq_true. intros Hr. apply Hne.
          apply (f_equal (@rev _)) in Hr. by rewrite rev_involutive in Hr. }
      simpl.
      replace (forallb _ (rev a)) with true; [done|].
      symmetry. apply no_newline_forallb.
      rewrite Forall_forall in *. intros c Hc. apply Ha.
      apply list_elem_of_In. apply list_elem_of_In in Hc. by apply in_rev in Hc.
    + rewrite Forall_forall in *. intros c Hc. apply Hd.
      apply list_elem_of_In. apply list_elem_of_In in Hc. by apply in_rev in Hc.
    + done.
Qed.

Lemma string_of_list_inj l1 l2 :
  String.string_of_list_ascii l1 = String.string_of_list_ascii l2 -> l1 = l2.
Proof.
  intros Heq. apply (f_equal String.list_ascii_of_string) in Heq.
  by rewrite !String.list_ascii_of_string_of_list_ascii in Heq.
Qed.

Lemma list_of_string_inj s1 s2 :
  String.list_ascii_of_string s1 = String.list_ascii_of_string s2 -> s1 = s2.
Proof.
  intros Heq. apply (f_equal String.string_of_list_ascii) in Heq.
  by rewrite !String.string_of_list_ascii_of_string in Heq.
Qed.

(** The matcher accepts exactly what the pattern describes, and
    captures the digit run. *)
Lemma re_match_index_spec e d :
  re_match_index e = Some d <-> matches_index e d.
Proof.
  unfold re_match_index, matches_index.
  set (l := String.list_ascii_of_string e).
  assert (He : e = String.string_of_list_ascii l).
  { unfold l. by rewrite String.string_of_list_ascii_of_string. }
  rewrite fmap_Some. split.
  - intros (dl & Hm & ->). rewrite String.list_ascii_of_string_of_list_ascii.
    apply match_index_rev_spec in Hm as (a & Hr & Ha & Hne & Hd).
    assert (Hshape : forall nl : list ascii,
               l = (a ++ "_"%char :: dl ++ String.list_ascii_of_string ".pdb") ++ nl ->
               e = String.string_of_list_ascii a +:+ "_" +:+
                   String.string_of_list_ascii dl +:+ ".pdb" +:+
                   String.string_of_list_ascii nl).
    { intros nl Hl. apply list_of_string_inj.
      rewrite !list_ascii_app, !String.list_ascii_of_string_of_list_ascii.
      fold l. rewrite Hl, <- !app_assoc. simpl. by rewrite <- !app_assoc. }
    destruct (rev l) as [|c r'] eqn:Hl.
    { exfalso. apply (f_equal length) in Hr.
      rewrite length_rev, length_app in Hr. simpl in Hr. lia. }
    apply (f_equal (@rev _)) in Hl. rewrite rev_involutive in Hl.
    destruct (is_newline c) eqn:Hc.
    + apply is_newline_true in Hc as ->.
      exists (String.string_of_list_ascii a), (String newline "").
      rewrite String.list_ascii_of_string_of_list_ascii.
      split; [|split; [by right|split; [done|split; [|done]]]].
      * apply (Hshape [newline]). rewrite Hl, Hr. simpl.
        by rewrite rev_involutive.
      * intros Hnil. apply Hne. by apply string_of_list_inj.
    + exists (String.string_of_list_ascii a), "".
      rewrite String.list_ascii_of_string_of_list_ascii.
      split; [|split; [by left|split; [done|split; [|done]]]].
      * apply (Hshape []). rewrite Hl, Hr, rev_involutive.
        by rewrite app_nil_r.
      * intros Hnil. apply Hne. by apply string_of_list_inj.
  - intros (a & nl & Hl & Hnl & Ha & Hne & Hd).
    exists (String.list_ascii_of_string d).
    rewrite String.string_of_list_ascii_of_string. split; [|done].
    apply match_index_rev_spec. exists (String.list_ascii_of_string a).
    split; [|split; [done|split; [|done]]].
    2:{ intros Hnil. apply Hne. by apply list_of_string_inj. }
    assert (Hll : l = (String.list_ascii_of_string a ++ "_"%char ::
                        String.list_ascii_of_string d ++
                        String.list_ascii_of_string ".pdb") ++
                      String.list_ascii_of_string nl).
    { unfold l. rewrite Hl. rewrite !list_ascii_app. simpl.
      rewrite <- !app_assoc. simpl. by rewrite <- !app_assoc. }
    rewrite Hll. destruct Hnl as [-> | ->]; simpl.
    + rewrite app_nil_r.
      destruct (rev _) as [|c r'] eqn:Hrev; [done|].
      destruct (is_newline c) eqn:Hc; [|done].
      apply is_newline_true in Hc as ->. exfalso.
      rewrite !rev_app_distr in Hrev. simpl in Hrev.
      rewrite !rev_app_distr in Hrev. simpl in Hrev. discriminate.
    + rewrite rev_app_distr.
      change (rev [newline] ++ ?x) with (newline :: x).
      unfold is_newline. destruct (decide (newline = newline)); done.
Qed.

Lemma range_from_app start (k m : nat) :
  range_from start 1 (k + m)
  = range_from start 1 k ++ range_from (start + Z.of_nat k) 1 m.
Proof.
  revert start. induction k as [|k IH]; intros start; simpl.
  - f_equal. lia.
  - rewrite IH. do 3 f_equal. lia.
Qed.

Lemma range_up_split start n i :
  start <= i < start + n ->
  exists done rest, range start (start + n) 1 = done ++ i :: rest.
Proof.
  intros Hi. unfold range. rewrite range_len_up.
  replace (Z.to_nat (Z.max 0 n))
    with (Z.to_nat (i - start) + S (Z.to_nat (start + n - i - 1)))%nat by lia.
  rewrite range_from_app. simpl.
  eexists _, _. f_equal. f_equal. lia.
Qed.
(** [dirname] is empty only for a path without a slash. *)
Lemma span_no_slash_rest l a b :
  span (fun c => negb (is_slash c)) l = (a, b) ->
  "/"%char ∈ l -> exists b', b = "/"%char :: b'.
Proof.
  intros Hsp Hin. apply span_spec in Hsp as (-> & Ha & Hb).
  destruct b as [|c b'].
  - exfalso. rewrite app_nil_r in Hin. rewrite Forall_forall in Ha.
    specialize (Ha _ Hin). unfold is_slash in Ha. by case_decide.
  - exists b'. f_equal. unfold is_slash in Hb. by case_decide.
Qed.

Lemma dirname_nonempty path :
  "/"%char ∈ String.list_ascii_of_string path -> dirname path <> "".
Proof.
  intros Hin. unfold dirname, split_path.
  destruct (span _ (rev _)) as [tl hd] eqn:Hsp. simpl.
  apply span_no_slash_rest in Hsp as (hd' & ->).
  2:{ apply list_elem_of_In, in_rev. rewrite rev_involutive.
      by apply list_elem_of_In. }
  destruct (span is_slash _) as [sl rest] eqn:Hsl. simpl.
  assert (Hne : forall l : list ascii, l <> [] ->
             String.string_of_list_ascii (rev l) <> "").
  { intros l Hl Hs. apply Hl.
    apply (f_equal String.list_ascii_of_string) in Hs.
    rewrite String.list_ascii_of_string_of_list_ascii in Hs. simpl in Hs.
    apply (f_equal (@rev _)) in Hs. by rewrite rev_involutive in Hs. }
  destruct rest; by apply Hne.
Qed.

Lemma traj_dirname_nonempty a b :
  dirname (a +:+ "/traj/" +:+ b) <> "".
Proof.
  apply dirname_nonempty. rewrite !list_ascii_app.
  apply elem_of_app. right. simpl. by left.
Qed.


(** *** Decimal strings and [int] *)

Lemma int_from_app acc l1 l2 :
  int_from acc (l1 ++ l2) = int_from (int_from acc l1) l2.
Proof. unfold int_from. by rewrite fold_left_app. Qed.

Lemma uint_digits (d : Decimal.uint) :
  Forall (fun c => is_digit c = true)
    (String.list_ascii_of_string (NilEmpty.string_of_uint d)).
Proof. induction d; simpl; by constructor. Qed.

Lemma int_from_uint_acc (d : Decimal.uint) (acc : positive) :
  int_from (Z.pos acc) (String.list_ascii_of_string (NilEmpty.string_of_uint d))
  = Z.pos (Pos.of_uint_acc d acc).
Proof.
  revert acc. induction d; intros acc; simpl; [done|..];
    unfold int_from in *; simpl; rewrite <- IHd; f_equal; lia.
Qed.

Lemma int_from_uint (d : Decimal.uint) :
  int_from 0 (String.list_ascii_of_string (NilEmpty.string_of_uint d))
  = Z.of_N (Pos.of_uint d).
Proof.
  induction d; simpl; [done|exact IHd|..];
    unfold int_from; simpl; apply (int_from_uint_acc d).
Qed.

Lemma decimal_eq n :
  decimal n = NilEmpty.string_of_uint (N.to_uint n).
Proof.
  unfold decimal, NilZero.string_of_uint.
  destruct (N.to_uint n) eqn:Hd; try done.
  destruct n as [|p]; [done|]. simpl in Hd.
  pose proof (DecimalPos.Unsigned.of_to p) as Hp. unfold N.to_uint in Hd.
  by rewrite Hd in Hp.
Qed.

Lemma decimal_digits n :
  Forall (fun c => is_digit c = true) (String.list_ascii_of_string (decimal n)).
Proof. rewrite decimal_eq. apply uint_digits. Qed.

Lemma decimal_nonempty n : decimal n <> "".
Proof.
  unfold decimal, NilZero.string_of_uint.
  destruct (N.to_uint n); by simpl.
Qed.

Lemma int_decimal n : int (decimal n) = Z.of_N n.
Proof.
  unfold int, int_of_digits. rewrite decimal_eq.
  change (fold_left _ ?l 0) with (int_from 0 l).
  rewrite int_from_uint. f_equal. apply DecimalN.Unsigned.of_to.
Qed.

(** *** The format [05d] *)

Lemma zeros_digits k :
  Forall (fun c => is_digit c = true) (String.list_ascii_of_string (zeros k)).
Proof. induction k; simpl; by constructor. Qed.

Lemma int_from_zeros k :
  int_from 0 (String.list_ascii_of_string (zeros k)) = 0.
Proof. induction k; [done|]. simpl. exact IHk. Qed.

Lemma format_05d_nonneg z :
  0 <= z ->
  format_05d z
  = zeros (5 - String.length (decimal (Z.to_N z))) +:+ decimal (Z.to_N z).
Proof.
  intros Hz. unfold format_05d.
  destruct (Z.ltb_spec z 0); [lia|].
  by replace (Z.abs_N z) with (Z.to_N z) by lia.
Qed.

Lemma format_05d_neg z :
  z < 0 ->
  format_05d z
  = "-" +:+ zeros (4 - String.length (decimal (Z.abs_N z)))
      +:+ decimal (Z.abs_N z).
Proof. intros Hz. unfold format_05d. by destruct (Z.ltb_spec z 0); [|lia]. Qed.

(** [int] undoes the format on the indices that are not negative. *)
Lemma int_format_05d z : 0 <= z -> int (format_05d z) = z.
Proof.
  intros Hz. rewrite format_05d_nonneg by done.
  unfold int, int_of_digits.
  change (fold_left _ ?l 0) with (int_from 0 l).
  rewrite list_ascii_app, int_from_app, int_from_zeros.
  pose proof (int_decimal (Z.to_N z)) as Hd. unfold int, int_of_digits in Hd.
  change (fold_left _ ?l 0) with (int_from 0 l) in Hd. rewrite Hd. lia.
Qed.

Lemma format_05d_nonneg_digits z :
  0 <= z ->
  Forall (fun c => is_digit c = true)
    (String.list_ascii_of_string (format_05d z))
  /\ format_05d z <> "".
Proof.
  intros Hz. rewrite format_05d_nonneg by done. split.
  - rewrite list_ascii_app. apply Forall_app.
    split; [apply zeros_digits | apply decimal_digits].
  - intros Hnil. apply (f_equal String.list_ascii_of_string) in Hnil.
    rewrite list_ascii_app in Hnil. simpl in Hnil.
    apply app_eq_nil in Hnil as [_ Hnil].
    apply (decimal_nonempty (Z.to_N z)). by apply list_of_string_inj.
Qed.

Lemma format_05d_neg_shape z :
  z < 0 ->
  exists ds, format_05d z = String "-"%char ds
    /\ Forall (fun c => is_digit c = true) (String.list_ascii_of_string ds)
    /\ int ds = - z.
Proof.
  intros Hz. rewrite format_05d_neg by done. eexists. split; [reflexivity|].
  split.
  - rewrite list_ascii_app. apply Forall_app.
    split; [apply zeros_digits | apply decimal_digits].
  - unfold int, int_of_digits.
    change (fold_left _ ?l 0) with (int_from 0 l).
    rewrite list_ascii_app, int_from_app, int_from_zeros.
    pose proof (int_decimal (Z.abs_N z)) as Hd. unfold int, int_of_digits in Hd.
    change (fold_left _ ?l 0) with (int_from 0 l) in Hd. rewrite Hd. lia.
Qed.

(** Reading an index back from its formatted form, sign included. *)
Lemma format_05d_read z :
  (if z <? 0 then - int (unsigned (format_05d z)) else int (format_05d z)) = z.
Proof.
  destruct (Z.ltb_spec z 0) as [Hz|Hz].
  - destruct (format_05d_neg_shape z Hz) as (ds & -> & _ & Hint).
    simpl. rewrite Hint. lia.
  - by apply int_format_05d.
Qed.

Lemma format_05d_sign z :
  (z <? 0) = match format_05d z with
             | String c _ => if decide (c = "-"%char) then true else false
             | EmptyString => false
             end.
Proof.
  destruct (Z.ltb_spec z 0) as [Hz|Hz].
  - by destruct (format_05d_neg_shape z Hz) as (ds & -> & _).
  - destruct (format_05d_nonneg_digits z Hz) as [Hd Hne].
    destruct (format_05d z) as [|c rest]; [done|].
    simpl in Hd. apply Forall_cons in Hd as [Hc _].
    case_decide; [by subst c|done].
Qed.

Lemma format_05d_inj z1 z2 : format_05d z1 = format_05d z2 -> z1 = z2.
Proof.
  intros Heq.
  rewrite <- (format_05d_read z1), <- (format_05d_read z2).
  by rewrite (format_05d_sign z1), (format_05d_sign z2), Heq.
Qed.

Lemma format_05d_chars z :
  Forall (fun c => is_digit c = true \/ c = "-"%char)
    (String.list_ascii_of_string (format_05d z)).
Proof.
  destruct (Z.lt_ge_cases z 0) as [Hz|Hz].
  - destruct (format_05d_neg_shape z Hz) as (ds & -> & Hd & _).
    simpl. constructor; [by right|].
    eapply Forall_impl; [exact Hd|]. by left.
  - destruct (format_05d_nonneg_digits z Hz) as [Hd _].
    eapply Forall_impl; [exact Hd|]. by left.
Qed.

(** *** Artifact names and the pattern of the scan *)

Lemma match_formatted_nonneg prefix z :
  Forall (fun c => c <> newline) (String.list_ascii_of_string prefix) ->
  0 <= z ->
  re_match_index (prefix +:+ "_" +:+ format_05d z +:+ ".pdb")
  = Some (format_05d z).
Proof.
  intros Hp Hz. apply re_match_index_spec.
  destruct (format_05d_nonneg_digits z Hz) as [Hd Hne].
  exists prefix, "". split; [done|]. split; [by left|]. done.
Qed.

Lemma match_formatted_neg prefix z :
  z < 0 ->
  re_match_index (prefix +:+ "_" +:+ format_05d z +:+ ".pdb") = None.
Proof.
  intros Hz. destruct (format_05d_neg_shape z Hz) as (ds & -> & Hd & _).
  unfold re_match_index. rewrite !list_ascii_app. simpl.
  rewrite rev_app_distr. simpl. rewrite rev_app_distr. simpl.
  rewrite <- !app_assoc. simpl.
  unfold match_index_rev. simpl.
  rewrite (span_app is_digit (rev (String.list_ascii_of_string ds))
             "-"%char).
  - done.
  - rewrite Forall_forall in *. intros c Hc. apply Hd.
    apply list_elem_of_In. apply list_elem_of_In in Hc. by apply in_rev in Hc.
  - done.
Qed.

(** *** [dirname] and [basename] *)

Lemma span_app_all p l1 l2 :
  Forall (fun x => p x = true) l1 ->
  span p (l1 ++ l2) = ((l1 ++ (span p l2).1), (span p l2).2).
Proof.
  induction 1 as [|x l1 Hx _ IH]; simpl.
  - by destruct (span p l2).
  - rewrite Hx, IH. done.
Qed.

Lemma no_slash_span s :
  no_slash s ->
  Forall (fun c => negb (is_slash c) = true)
    (rev (String.list_ascii_of_string s)).
Proof.
  unfold no_slash. rewrite !Forall_forall. intros Hs c Hc.
  apply list_elem_of_In, in_rev, list_elem_of_In in Hc.
  specialize (Hs c Hc). unfold is_slash. by case_decide.
Qed.

(** A suffix without a slash extends the last component only. *)
Lemma split_path_app s t :
  no_slash t ->
  split_path (s +:+ t)
  = (rev (String.list_ascii_of_string t) ++ (split_path s).1,
     (split_path s).2).
Proof.
  intros Ht. unfold split_path. rewrite list_ascii_app, rev_app_distr.
  by rewrite span_app_all by (by apply no_slash_span).
Qed.

Lemma basename_app s t : no_slash t -> basename (s +:+ t) = basename s +:+ t.
Proof.
  intros Ht. unfold basename. rewrite split_path_app by done. simpl.
  rewrite rev_app_distr, rev_involutive.
  apply list_of_string_inj.
  by rewrite list_ascii_app, !String.list_ascii_of_string_of_list_ascii.
Qed.

Lemma dirname_app s t : no_slash t -> dirname (s +:+ t) = dirname s.
Proof. intros Ht. unfold dirname. by rewrite split_path_app. Qed.

Lemma basename_no_slash s : no_slash (basename s).
Proof.
  unfold no_slash, basename, split_path.
  rewrite String.list_ascii_of_string_of_list_ascii.
  destruct (span _ _) as [a b] eqn:Hsp. simpl.
  apply span_spec in Hsp as (_ & Ha & _).
  rewrite Forall_forall in *. intros c Hc.
  apply list_elem_of_In, in_rev, list_elem_of_In in Hc.
  specialize (Ha c Hc). unfold is_slash in Ha. by case_decide.
Qed.

Lemma basename_after_slash d : basename (d +:+ "/") = "".
Proof.
  unfold basename, split_path. rewrite list_ascii_app, rev_app_distr. done.
Qed.

Lemma dirname_traj d : dirname ((d +:+ "/traj") +:+ "/") = d +:+ "/traj".
Proof.
  unfold dirname, split_path.
  rewrite !list_ascii_app, !rev_app_distr. simpl.
  apply list_of_string_inj.
  rewrite String.list_ascii_of_string_of_list_ascii, list_ascii_app.
  simpl. rewrite rev_involutive. by rewrite <- !app_assoc.
Qed.

(** The trajectory prefix of a path: its directory is the [traj]
    directory beside the path, and its last component is the path's. *)
Lemma traj_prefix_parts p :
  dirname (dirname p +:+ "/traj/" +:+ basename p) = dirname p +:+ "/traj"
  /\ basename (dirname p +:+ "/traj/" +:+ basename p) = basename p.
Proof.
  assert (Hassoc : dirname p +:+ "/traj/" +:+ basename p
                   = ((dirname p +:+ "/traj") +:+ "/") +:+ basename p).
  { apply list_of_string_inj. rewrite !list_ascii_app, <- !app_assoc. done. }
  rewrite Hassoc. split.
  - rewrite dirname_app by apply basename_no_slash. apply dirname_traj.
  - rewrite basename_app by apply basename_no_slash.
    by rewrite basename_after_slash.
Qed.

Lemma int_from_nonneg acc ds : 0 <= acc -> 0 <= int_from acc ds.
Proof.
  revert acc. induction ds as [|c ds IH]; intros acc Hacc; [done|].
  simpl. apply IH. unfold digit_value.
  destruct (_ && _) eqn:Hc; simpl; [|lia].
  apply andb_true_iff in Hc as [Hlo _]. lia.
Qed.

Lemma int_nonneg s : 0 <= int s.
Proof. by apply (int_from_nonneg 0). Qed.

End PyFacts.

(** ** The script *)

Module InferenceFacts.
Import Inference.

Section Facts.
Context {X scalar Gen Hid Err : Type}.
Context (gtb : scalar -> scalar -> bool) (backbone : X -> X)
        (seeded : Z -> Gen)
        (glob : @filesystem X scalar -> string -> list string).

Local Abbreviation Sampler := (@Sampler X scalar Gen Hid Err).
Local Abbreviation world := (@world X scalar Gen Hid Err).
Local Abbreviation M := (@M X scalar Gen Hid Err).
Local Abbreviation event := (@event X scalar Err).

(** *** Sequencing *)

Lemma bind_Ok {A B} (m : M A) (k : A -> M B) w b w' :
  bind m k w = (Ok b, w') <->
  exists a w1, m w = (Ok a, w1) /\ k a w1 = (Ok b, w').
Proof.
  unfold bind. destruct (m w) as [[a|e] w1]; split.
  - eauto.
  - by intros (a' & w1' & [= <- <-] & Hk).
  - discriminate.
  - by intros (a' & w1' & [=] & _).
Qed.

Lemma bind_Raise {A B} (m : M A) (k : A -> M B) w e w' :
  bind m k w = (Raise e, w') <->
  m w = (Raise e, w') \/
  exists a w1, m w = (Ok a, w1) /\ k a w1 = (Raise e, w').
Proof.
  unfold bind. destruct (m w) as [[a|e'] w1]; split.
  - eauto.
  - intros [[=] | (a' & w1' & [= <- <-] & Hk)]. done.
  - intros [= <- <-]. by left.
  - intros [[= <- <-] | (a' & w1' & [=] & _)]. done.
Qed.

Lemma or_raise_Ok {A} e (o : option A) (w : world) a w' :
  or_raise e o w = (Ok a, w') <-> o = Some a /\ w' = w.
Proof.
  destruct o; simpl; unfold ret, raise; split.
  - by intros [= -> ->].
  - by intros [[= ->] ->].
  - discriminate.
  - by intros [[=] _].
Qed.

Lemma or_raise_Raise {A} e (o : option A) (w : world) e' w' :
  or_raise e o w = (Raise e', w') <-> o = None /\ e' = e /\ w' = w.
Proof.
  destruct o; simpl; unfold ret, raise; split.
  - discriminate.
  - by intros [[=] _].
  - by intros [= -> ->].
  - by intros (_ & -> & ->).
Qed.

(** *** The timestep loop *)

Lemma collected_refl (acc : @accumulators X scalar) : collected acc acc [].
Proof.
  unfold collected. simpl. rewrite !app_nil_r. repeat split.
  exists []. by rewrite app_nil_r.
Qed.

Lemma collected_step (acc acc' : @accumulators X scalar) px0 x' q' p0 ps rs :
  collected
    {| px0_xyz_stack := px0_xyz_stack acc ++ [px0];
       denoised_xyz_stack := denoised_xyz_stack acc ++ [x'];
       seq_stack := seq_stack acc ++ [q'];
       plddt_stack := plddt_stack acc ++ [p0] |} acc' rs ->
  collected acc acc' ((px0, x', q', p0 :: ps) :: rs).
Proof.
  unfold collected. simpl. intros (Hd & Hp & Hq & pl & Hl & Hpl).
  rewrite Hd, Hp, Hq, <- !app_assoc. repeat split.
  exists (p0 :: pl). rewrite Hl, <- app_assoc. simpl. by rewrite Hpl.
Qed.

Lemma diffusion_loop_run (s : Sampler) ts x q acc (w : world) o w' :
  diffusion_loop s ts x q acc w = (o, w') ->
  fs w' = fs w /\
  exists evs,
    trace w' = trace w ++ evs
    /\ Forall is_step evs
    /\ omap step_time evs `prefix_of` ts
    /\ (forall acc', o = Ok acc' ->
          omap step_time evs = ts
          /\ length (omap step_result evs) = length ts
          /\ collected acc acc' (omap step_result evs))
    /\ (forall ev e, ev ∈ evs -> raised_in ev = Some e ->
          o = Raise (SamplerError e)).
Proof.
  revert x q acc w o w'.
  induction ts as [|t ts IH]; intros x q acc w o w'; simpl.
  - intros [= <- <-]. split; [done|]. exists []. rewrite app_nil_r.
    split; [done|]. split; [done|]. split; [done|]. split.
    + intros acc' [= <-]. auto using collected_refl.
    + intros ev e Hin. by apply elem_of_nil in Hin.
  - unfold bind at 1. unfold call_sample_step.
    destruct (sample_step s t x q (final_step (inf_conf s))
                (sampler_state w) (rng w)) as [[res h] g] eqn:Hstep.
    destruct res as [[[[px0 x'] q'] p]|e]; simpl.
    + unfold bind at 1. destruct p as [|p0 ps]; simpl.
      * intros [= <- <-]. simpl. split; [done|].
        eexists [_]. split; [done|]. split; [by repeat constructor|].
        split; [by exists ts|]. split; [done|].
        intros ev e Hin%list_elem_of_singleton Hr. by subst ev.
      * intros Hloop.
        apply IH in Hloop as (Hfs & evs & Htr & Hst & Hpre & Hok & Herr).
        simpl in *. split; [done|].
        eexists (_ :: evs). rewrite Htr, <- app_assoc.
        split; [done|]. split; [by constructor|].
        split; [by apply prefix_cons|]. split.
        -- intros acc' ->. destruct (Hok _ eq_refl) as (Ht & Hlen & Hc).
           split; [by rewrite <- Ht|]. split; [simpl; by f_equal|].
           by apply collected_step.
        -- intros ev e Hin Hr. apply elem_of_cons in Hin as [-> | Hin];
             [done | eauto].
    + intros [= <- <-]. simpl. split; [done|].
      eexists [_]. split; [done|]. split; [by repeat constructor|].
      split; [by exists ts|]. split; [done|].
      intros ev e0 Hin%list_elem_of_singleton Hr. subst ev.
      by injection Hr as ->.
Qed.

(** *** Tensor operations of the output stage *)

Lemma where_glycine (am : list Z) :
  Torch.where_scalar_l (Torch.eq_scalar am 21) 7 am
  = map (fun c => if c =? 21 then 7 else c) am.
Proof.
  unfold Torch.where_scalar_l, Torch.eq_scalar.
  induction am as [|c am IH]; simpl; [done|]. by rewrite IH.
Qed.

Lemma bfacts_mask (am : list Z) bf :
  Torch.masked_assign
    (Torch.ones_like (Torch.squeeze
       (Torch.where_scalar_l (Torch.eq_scalar am 21) 7 am)))
    (Torch.where_bool (Torch.eq_scalar am 21)) 0 = Some bf
  <-> length am <> 1%nat
      /\ bf = Torch.Vector (map (fun c => if c =? 21 then 0 else 1) am).
Proof.
  rewrite where_glycine.
  destruct am as [|c [|c' am]]; simpl.
  - split; [intros [= <-]; split; [lia|done] | intros [_ ->]; done].
  - split; [done | intros [Hl _]; done].
  - unfold Torch.masked_assign, Torch.where_bool, Torch.eq_scalar.
    simpl. rewrite !length_map.
    destruct (decide _) as [_|Hne]; [|done].
    assert (Hz : forall l : list Z,
               zip_with (fun (m : bool) (x : Z) => if m then 0 else x)
                 (map (fun c0 : bool => if c0 then true else false)
                    (map (fun v => v =? 21) l))
                 (map (fun _ => 1) (map (fun c0 => if c0 =? 21 then 7 else c0) l))
               = map (fun c0 => if c0 =? 21 then 0 else 1) l).
    { induction l as [|z l IH]; simpl; [done|].
      rewrite IH. by destruct (z =? 21). }
    specialize (Hz am).
    split.
    + intros [= <-]. split; [lia|]. f_equal.
      destruct (c =? 21), (c' =? 21); simpl; by rewrite Hz.
    + intros [_ ->]. f_equal. f_equal.
      destruct (c =? 21), (c' =? 21); simpl; by rewrite Hz.
Qed.

Lemma argmax_lookup (q : list (list scalar)) am :
  Torch.argmax gtb q = Some am ->
  length am = length q
  /\ forall k row, q !! k = Some row ->
       exists c, Torch.argmax_row gtb row = Some c /\ am !! k = Some c.
Proof.
  unfold Torch.argmax. rewrite mapM_Some. intros HF. split.
  - symmetry. by eapply Forall2_length.
  - intros k row Hk.
    destruct (Forall2_lookup_l _ _ _ _ _ HF Hk) as (c & Hc & Hrow). eauto.
Qed.

(** *** The output stage *)

Lemma fs_only_ret {A} (a : A) : fs_only (ret a : M A).
Proof.
  intros w o w' [= <- <-]. repeat split; [|done].
  exists []. by rewrite app_nil_r.
Qed.

Lemma fs_only_or_raise {A} e (o : option A) :
  (forall e', e <> SamplerError e') -> fs_only (or_raise e o : M A).
Proof.
  intros He w o' w'. destruct o; simpl.
  - apply fs_only_ret.
  - intros [= <- <-]. repeat split.
    + exists []. by rewrite app_nil_r.
    + intros e' [= ->]. by eapply He.
Qed.

Lemma fs_only_bind {A B} (m : M A) (k : A -> M B) :
  fs_only m -> (forall a, fs_only (k a)) -> fs_only (bind m k).
Proof.
  intros Hm Hk w o w'. unfold bind.
  destruct (m w) as [[a|e] w1] eqn:Hmw.
  - intros Hkw. destruct (Hm _ _ _ Hmw) as (Hr & Hs & (ev1 & Ht1 & Hf1) & _).
    destruct (Hk _ _ _ _ Hkw) as (Hr' & Hs' & (ev2 & Ht2 & Hf2) & Hne).
    split; [congruence|]. split; [congruence|]. split; [|done].
    exists (ev1 ++ ev2). rewrite Ht2, Ht1, <- app_assoc.
    split; [done|]. by apply Forall_app.
  - intros [= <- <-].
    destruct (Hm _ _ _ Hmw) as (Hr & Hs & Hev & Hne).
    repeat (split; [done|]). intros e' [= ->]. by eapply Hne.
Qed.

Lemma fs_only_makedirs name : fs_only (makedirs name : M unit).
Proof.
  intros w o w'. unfold makedirs. case_decide.
  - intros [= <- <-]. repeat split; [|done]. exists []. by rewrite app_nil_r.
  - intros [= <- <-]. repeat split; [|done]. eexists [_]. split; [done|].
    by repeat constructor.
Qed.

Lemma fs_only_write_file path a : fs_only (write_file path a : M unit).
Proof.
  intros w o w' [= <- <-]. repeat split; [|done]. eexists [_].
  split; [done|]. by repeat constructor.
Qed.

Lemma fs_only_when b (m : M unit) : fs_only m -> fs_only (when b m).
Proof. destruct b; [done|]. intros _. apply fs_only_ret. Qed.

Lemma fs_only_save_outputs (s : Sampler) p q acc :
  fs_only (save_outputs gtb backbone s p q acc).
Proof.
  unfold save_outputs.
  repeat first
    [ apply fs_only_bind; [|intros ?]
    | apply fs_only_or_raise; done
    | apply fs_only_makedirs
    | apply fs_only_write_file
    | apply fs_only_when ].
Qed.

(** *** One design *)

Lemma call_sample_init_run (s : Sampler) (w : world) o w' :
  call_sample_init s w = (o, w') ->
  exists res, o = surface res /\ fs w' = fs w
    /\ trace w' = trace w ++ [SampleInit res].
Proof.
  unfold call_sample_init.
  destruct (sample_init s (sampler_state w) (rng w)) as [[res h] g].
  intros [= <- <-]. by exists res.
Qed.

Lemma makedirs_Ok name (w : world) u w' :
  makedirs name w = (Ok u, w') ->
  name <> "" /\ trace w' = trace w ++ [MakeDirs name].
Proof. unfold makedirs. case_decide; [done|]. by intros [= <- <-]. Qed.

Lemma write_file_Ok path a (w : world) u w' :
  write_file path a w = (Ok u, w') ->
  trace w' = trace w ++ [WriteFile path a].
Proof. unfold write_file. by intros [= <- <-]. Qed.

Tactic Notation "step_ok" hyp(Hrun) "as" ident(a) ident(w) ident(Hs) :=
  apply bind_Ok in Hrun as (a & w & Hs & Hrun).

Lemma head_rev {A} (l : list A) : head (rev l) = last l.
Proof. rewrite rev_alt. apply (head_reverse l). Qed.

Lemma stack_Some {A} (l l' : list A) :
  Torch.stack l = Some l' <-> l' = l /\ l <> [].
Proof. destruct l; simpl; split; try done; [by intros [_ ?] | by intros [= <-] | by intros [-> _]]. Qed.

Lemma save_outputs_Ok (s : Sampler) p seq_init acc (w : world) u w' :
  save_outputs gtb backbone s p seq_init acc w = (Ok u, w') ->
  exists am first,
    let final_seq := map (fun c => if c =? 21 then 7 else c) am in
    let bfacts := Torch.Vector (map (fun c => if c =? 21 then 0 else 1) am) in
    trace w' = trace w ++ saved backbone s p acc final_seq bfacts first
    /\ Torch.argmax gtb seq_init = Some am
    /\ length am <> 1%nat
    /\ last (denoised_xyz_stack acc) = Some first
    /\ denoised_xyz_stack acc <> [] /\ px0_xyz_stack acc <> []
    /\ plddt_stack acc <> []
    /\ Py.dirname p <> "".
Proof.
  unfold save_outputs. intros Hrun.
  step_ok Hrun as den w2 Hden. apply or_raise_Ok in Hden as [Hden ->].
  step_ok Hrun as px w2 Hpx. apply or_raise_Ok in Hpx as [Hpx ->].
  step_ok Hrun as pl w2 Hpl. apply or_raise_Ok in Hpl as [Hpl ->].
  apply stack_Some in Hden as [-> Hden], Hpx as [-> Hpx], Hpl as [-> Hpl].
  step_ok Hrun as u1 w2 Hmk. apply makedirs_Ok in Hmk as [Hdir Htr2].
  step_ok Hrun as fsq w3 Hfsq. apply or_raise_Ok in Hfsq as [_ ->].
  step_ok Hrun as am w3 Ham. apply or_raise_Ok in Ham as [Ham ->].
  step_ok Hrun as am' w3 Ham'. apply or_raise_Ok in Ham' as [Ham' ->].
  step_ok Hrun as bf0 w3 Hbf0. apply or_raise_Ok in Hbf0 as [Ham'' ->].
  rewrite Ham in Ham', Ham''. injection Ham' as <-. injection Ham'' as <-.
  step_ok Hrun as bf w3 Hbf. apply or_raise_Ok in Hbf as [Hbf ->].
  apply bfacts_mask in Hbf as [Hone ->].
  step_ok Hrun as first w3 Hfirst. apply or_raise_Ok in Hfirst as [Hfirst ->].
  step_ok Hrun as u2 w3 Hw1. apply write_file_Ok in Hw1 as Htr3.
  step_ok Hrun as u3 w4 Hw2. apply write_file_Ok in Hw2 as Htr4.
  exists am, first.
  rewrite where_glycine in *.
  assert (Hlast : last (denoised_xyz_stack acc) = Some first).
  { rewrite <- Hfirst. apply eq_sym, head_rev. }
  split; [|done].
  unfold saved.
  destruct (write_trajectory (inf_conf s)); simpl in Hrun.
  - step_ok Hrun as u5 w6 Hmk2. apply makedirs_Ok in Hmk2 as [_ Htr5].
    step_ok Hrun as u6 w7 Hw3. apply write_file_Ok in Hw3 as Htr6.
    apply write_file_Ok in Hrun as Htr7.
    rewrite Htr7, Htr6, Htr5, Htr4, Htr3, Htr2.
    rewrite <- !app_assoc. done.
  - unfold ret in Hrun. injection Hrun as _ <-.
    rewrite Htr4, Htr3, Htr2.
    rewrite <- !app_assoc. done.
Qed.

(** A design that completes: the calls it made, in order. *)
Lemma make_design_Ok (s : Sampler) p (w : world) acc w' :
  make_design gtb backbone s p w = (Ok acc, w') ->
  exists x_init seq_init steps am first,
    let final_seq := map (fun c => if c =? 21 then 7 else c) am in
    let bfacts := Torch.Vector (map (fun c => if c =? 21 then 0 else 1) am) in
    trace w' = trace w ++ SampleInit (Returns (x_init, seq_init)) :: steps
                 ++ saved backbone s p acc final_seq bfacts first
    /\ Forall is_step steps
    /\ omap step_time steps = timesteps s
    /\ length (omap step_result steps) = length (timesteps s)
    /\ collected no_steps acc (omap step_result steps)
    /\ Torch.argmax gtb seq_init = Some am
    /\ length am <> 1%nat
    /\ last (denoised_xyz_stack acc) = Some first
    /\ Py.dirname p <> "".
Proof.
  unfold make_design. intros Hrun.
  step_ok Hrun as init w0 Hinit. destruct init as [x_init seq_init].
  apply call_sample_init_run in Hinit as (res & Hres & _ & Htr0).
  destruct res as [[? ?]|e]; [|done]. injection Hres as <- <-.
  step_ok Hrun as acc0 w1 Hloop.
  apply diffusion_loop_run in Hloop
    as (_ & steps & Htr1 & Hsteps & _ & Hok & _).
  destruct (Hok _ eq_refl) as (Hts & Hlen & Hcol).
  step_ok Hrun as u w2 Hsave.
  unfold ret in Hrun. injection Hrun as <- <-.
  apply save_outputs_Ok in Hsave
    as (am & first & Htr2 & Ham & Hone & Hlast & _ & _ & _ & Hdir).
  exists x_init, seq_init, steps, am, first.
  split; [|done].
  rewrite Htr2, Htr1, Htr0, <- !app_assoc. done.
Qed.

(** A design, however it ends: a sampler exception leaves only sampler
    calls behind, the last of which raised it. *)
Lemma make_design_run (s : Sampler) p (w : world) o w' :
  make_design gtb backbone s p w = (o, w') ->
  exists evs,
    trace w' = trace w ++ evs
    /\ (forall e, o = Raise (SamplerError e) ->
          fs w' = fs w /\ Forall is_sampler_call evs)
    /\ (forall ev e, ev ∈ evs -> raised_in ev = Some e ->
          o = Raise (SamplerError e)).
Proof.
  unfold make_design, bind at 1. intros Hrun.
  destruct (call_sample_init s w) as [o0 w0] eqn:Hinit.
  apply call_sample_init_run in Hinit as (res & -> & Hfs0 & Htr0).
  destruct res as [[x_init seq_init]|e0]; simpl in Hrun.
  2:{ injection Hrun as <- <-. eexists. split; [done|]. split.
      - intros _ _. split; [done|]. by repeat constructor.
      - intros ev e Hin%list_elem_of_singleton Hr. subst ev.
        by injection Hr as ->. }
  unfold bind at 1 in Hrun.
  destruct (diffusion_loop s (timesteps s) x_init seq_init no_steps w0)
    as [o1 w1] eqn:Hloop.
  apply diffusion_loop_run in Hloop
    as (Hfs1 & steps & Htr1 & Hsteps & _ & _ & Hraised).
  assert (Hcalls : Forall is_sampler_call
                     (SampleInit (Returns (x_init, seq_init)) :: steps)).
  { constructor; [done|]. eapply Forall_impl; [done|]. by intros []. }
  destruct o1 as [acc|e1].
  2:{ injection Hrun as <- <-. eexists. split.
      { rewrite Htr1, Htr0, <- app_assoc. done. }
      split.
      - intros _ _. split; [congruence | done].
      - intros ev e Hin Hr. apply elem_of_cons in Hin as [-> | Hin];
          [done | eauto]. }
  unfold bind at 1 in Hrun.
  destruct (save_outputs gtb backbone s p seq_init acc w1)
    as [o2 w2] eqn:Hsave.
  apply fs_only_save_outputs in Hsave as (_ & _ & (evs2 & Htr2 & Hfs2) & Hne).
  assert (Hnone : forall ev e,
             ev ∈ SampleInit (Returns (x_init, seq_init)) :: steps ++ evs2 ->
             raised_in ev = Some e -> False).
  { intros ev e Hin Hr. apply elem_of_cons in Hin as [-> | Hin]; [done|].
    apply elem_of_app in Hin as [Hin | Hin].
    - by specialize (Hraised _ _ Hin Hr).
    - rewrite Forall_forall in Hfs2. apply Hfs2 in Hin.
      by destruct ev as [[]| ? ? ? ? []| |]. }
  exists (SampleInit (Returns (x_init, seq_init)) :: steps ++ evs2).
  split.
  { destruct o2; injection Hrun as <- <-;
      rewrite Htr2, Htr1, Htr0, <- !app_assoc; done. }
  split.
  - intros e ->. destruct o2; [done|]. injection Hrun as -> _.
    by destruct (Hne e).
  - intros ev e Hin Hr. by destruct (Hnone _ _ Hin Hr).
Qed.

(** *** The body of the loop over designs *)

Lemma reseeded_frame conf i (w : world) :
  fs (reseeded seeded conf i w) = fs w
  /\ trace (reseeded seeded conf i w) = trace w
  /\ sampler_state (reseeded seeded conf i w) = sampler_state w
  /\ rng (reseeded seeded conf i w)
     = (if deterministic conf then seeded (seed conf + i) else rng w).
Proof. unfold reseeded. by destruct (deterministic conf). Qed.

(** A design either is skipped, leaving no call behind, or is made. *)
Lemma design_eq conf (s : Sampler) i (w : world) :
  design gtb backbone seeded conf s i w
  = if cautious (inf_conf s)
       && exists_in (fs w) (out_prefix_of s i +:+ ".pdb")
    then (Ok None, reseeded seeded conf i w)
    else
      let '(o, w') := make_design gtb backbone s (out_prefix_of s i)
                        (reseeded seeded conf i w) in
      (match o with Ok acc => Ok (Some acc) | Raise e => Raise e end, w').
Proof.
  unfold design, reseeded, bind, path_exists.
  destruct (deterministic conf), (cautious (inf_conf s)); simpl;
    try destruct (exists_in _ _); simpl; try done;
    by destruct (make_design _ _ _ _ _) as [[|] ?].
Qed.

Lemma design_Ok_Some conf (s : Sampler) i (w : world) acc w' :
  design gtb backbone seeded conf s i w = (Ok (Some acc), w') ->
  make_design gtb backbone s (out_prefix_of s i) (reseeded seeded conf i w)
  = (Ok acc, w').
Proof.
  rewrite design_eq. destruct (_ && _); [done|].
  destruct (make_design _ _ _ _ _) as [[|] ?]; [|done].
  by intros [= <- <-].
Qed.

Lemma design_skipped conf (s : Sampler) i (w : world) :
  cautious (inf_conf s) = true ->
  exists_in (fs w) (out_prefix_of s i +:+ ".pdb") = true ->
  design gtb backbone seeded conf s i w = (Ok None, reseeded seeded conf i w).
Proof. intros Hc Hex. by rewrite design_eq, Hc, Hex. Qed.

(** The loop over designs stops at the first design that raises. *)
Lemma batch_cons conf (s : Sampler) i l (w : world) :
  batch gtb backbone seeded conf s (i :: l) w
  = match design gtb backbone seeded conf s i w with
    | (Ok _, w1) => batch gtb backbone seeded conf s l w1
    | (Raise e, w1) => (Raise e, w1)
    end.
Proof.
  unfold batch. simpl. unfold bind.
  by destruct (design _ _ _ _ _ _ w) as [[|] ?].
Qed.

Lemma batch_app conf (s : Sampler) l1 l2 (w : world) :
  batch gtb backbone seeded conf s (l1 ++ l2) w
  = match batch gtb backbone seeded conf s l1 w with
    | (Ok _, w1) => batch gtb backbone seeded conf s l2 w1
    | (Raise e, w1) => (Raise e, w1)
    end.
Proof.
  revert w. induction l1 as [|i l1 IH]; intros w.
  - done.
  - rewrite <- app_comm_cons, !batch_cons.
    destruct (design _ _ _ _ _ _ w) as [[|] w1]; [apply IH|done].
Qed.

(** *** The timestep schedule *)

Lemma steps_length (evs : list event) :
  Forall is_step evs -> length (omap step_time evs) = length evs.
Proof.
  induction 1 as [|ev evs Hev _ IH]; [done|].
  destruct ev; try done. simpl. by f_equal.
Qed.

Lemma diffusion_loop_total (s : Sampler) :
  step_returns s ->
  forall ts x q acc (w : world),
    exists acc' w', diffusion_loop s ts x q acc w = (Ok acc', w').
Proof.
  intros Hret ts. induction ts as [|t ts IH]; intros x q acc w; simpl.
  - by eexists _, _.
  - unfold bind at 1, call_sample_step.
    destruct (Hret t x q (final_step (inf_conf s)) (sampler_state w) (rng w))
      as (px0 & x' & q' & p & ps & h' & g' & ->).
    simpl. unfold bind at 1. simpl. apply IH.
Qed.

(** C1. For every configuration with [final_step <= t_step_input] the
    timestep loop of a design has [t_step_input - final_step + 1]
    iterations, the k-th of which (counting from 0) runs at
    [t = t_step_input - k]: the calls to [sample_step] it leaves in the
    trace carry these values of [t], in this order, all of them when
    the loop runs to its end and an initial part of them when a step
    raises; and the loop runs to its end whenever the steps return. *)
Theorem timestep_loop_counts_down (s : Sampler) :
  final_step (inf_conf s) <= t_step_input s ->
  Z.of_nat (length (timesteps s))
    = t_step_input s - final_step (inf_conf s) + 1
  /\ (forall k : nat, (k < length (timesteps s))%nat ->
        timesteps s !! k = Some (t_step_input s - Z.of_nat k))
  /\ (forall x q acc (w : world) o w',
        diffusion_loop s (timesteps s) x q acc w = (o, w') ->
        exists evs,
          trace w' = trace w ++ evs
          /\ Forall is_step evs
          /\ omap step_time evs `prefix_of` timesteps s
          /\ (forall acc', o = Ok acc' ->
                omap step_time evs = timesteps s
                /\ length evs = length (timesteps s)))
  /\ (step_returns s ->
      forall x q acc (w : world),
        exists acc' w',
          diffusion_loop s (timesteps s) x q acc w = (Ok acc', w')).
Proof.
  intros Hle. unfold timesteps.
  split; [rewrite PyFacts.range_down_length; lia|].
  split.
  { intros k Hk. rewrite PyFacts.range_down_length in Hk.
    by apply PyFacts.range_down_lookup. }
  split.
  - intros x q acc w o w' Hrun.
    apply diffusion_loop_run in Hrun
      as (_ & evs & Htr & Hsteps & Hpre & Hok & _).
    exists evs. repeat (split; [done|]).
    intros acc' ->. destruct (Hok _ eq_refl) as (Hts & _).
    split; [done|]. by rewrite <- Hts, steps_length.
  - intros Hret x q acc w. by apply diffusion_loop_total.
Qed.

(** *** What a completed design wrote *)

Lemma design_completed conf (s : Sampler) i (w : world) acc w' :
  design gtb backbone seeded conf s i w = (Ok (Some acc), w') ->
  exists x_init seq_init steps am first,
    let final_seq := map (fun c => if c =? 21 then 7 else c) am in
    let bfacts := Torch.Vector (map (fun c => if c =? 21 then 0 else 1) am) in
    trace w' = trace w ++ SampleInit (Returns (x_init, seq_init)) :: steps
                 ++ saved backbone s (out_prefix_of s i) acc final_seq bfacts first
    /\ Forall is_step steps
    /\ omap step_time steps = timesteps s
    /\ length (omap step_result steps) = length (timesteps s)
    /\ collected no_steps acc (omap step_result steps)
    /\ Torch.argmax gtb seq_init = Some am
    /\ length am <> 1%nat
    /\ last (denoised_xyz_stack acc) = Some first
    /\ Py.dirname (out_prefix_of s i) <> "".
Proof.
  intros Hrun%design_Ok_Some%make_design_Ok.
  destruct (reseeded_frame conf i w) as (_ & Htr & _).
  by rewrite Htr in Hrun.
Qed.

Lemma file_written_in_saved (s : Sampler) p acc fsq bf first r
    (steps : list event) path a :
  Forall is_step steps ->
  WriteFile path a ∈ SampleInit r :: steps ++ saved backbone s p acc fsq bf first ->
  WriteFile path a ∈ saved backbone s p acc fsq bf first.
Proof.
  intros Hsteps Hin. apply elem_of_cons in Hin as [? | Hin]; [done|].
  apply elem_of_app in Hin as [Hin | Hin]; [|done].
  rewrite Forall_forall in Hsteps. by apply Hsteps in Hin.
Qed.

Lemma saved_pdb (s : Sampler) p acc fsq bf first path xyz sq b :
  WriteFile path (PdbFile xyz sq b) ∈ saved backbone s p acc fsq bf first <->
  path = p +:+ ".pdb" /\ xyz = backbone first /\ sq = fsq /\ b = bf.
Proof.
  unfold saved. destruct (write_trajectory (inf_conf s));
    rewrite elem_of_app, ?elem_of_cons, ?elem_of_nil;
    intuition (simplify_eq; auto).
Qed.

Lemma saved_trb (s : Sampler) p acc fsq bf first path pl :
  WriteFile path (TrbFile pl) ∈ saved backbone s p acc fsq bf first <->
  path = p +:+ ".trb" /\ pl = plddt_stack acc.
Proof.
  unfold saved. destruct (write_trajectory (inf_conf s));
    rewrite elem_of_app, ?elem_of_cons, ?elem_of_nil;
    intuition (simplify_eq; auto).
Qed.

Lemma saved_traj (s : Sampler) p acc fsq bf first path st b q :
  WriteFile path (TrajFile st b q) ∈ saved backbone s p acc fsq bf first <->
  write_trajectory (inf_conf s) = true /\ b = bf /\ q = Torch.squeeze fsq
  /\ let traj_prefix := Py.dirname p +:+ "/traj/" +:+ Py.basename p in
     (path = traj_prefix +:+ "_Xt-1_traj.pdb"
      /\ st = Torch.flip0 (denoised_xyz_stack acc)
      \/ path = traj_prefix +:+ "_pX0_traj.pdb"
         /\ st = Torch.flip0 (px0_xyz_stack acc)).
Proof.
  unfold saved. destruct (write_trajectory (inf_conf s));
    rewrite elem_of_app, ?elem_of_cons, ?elem_of_nil;
    intuition (simplify_eq; auto).
Qed.

Lemma results_of_design (s : Sampler) p acc fsq bf first r
    (steps : list event) :
  omap step_result
    (SampleInit r :: steps ++ saved backbone s p acc fsq bf first)
  = omap step_result steps.
Proof.
  simpl. rewrite omap_app.
  assert (Hnone : omap step_result (saved backbone s p acc fsq bf first) = []).
  { unfold saved. by destruct (write_trajectory (inf_conf s)). }
  by rewrite Hnone, app_nil_r.
Qed.

(** C2. In a design that completes, the sequence written to the
    structure artifact [<out_prefix>.pdb] is, position by position,
    glycine (7) where the argmax category of the initial sequence is
    the diffused category 21 and that argmax category elsewhere; the
    initial sequence is the one [sample_init] returned, and nothing the
    steps returned enters. *)
Theorem final_sequence_from_initial conf (s : Sampler) i (w : world)
    acc w' :
  design gtb backbone seeded conf s i w = (Ok (Some acc), w') ->
  exists evs x_init seq_init final_seq,
    trace w' = trace w ++ evs
    /\ head evs = Some (SampleInit (Returns (x_init, seq_init)))
    /\ (exists xyz bf,
          WriteFile (out_prefix_of s i +:+ ".pdb") (PdbFile xyz final_seq bf)
            ∈ evs)
    /\ (forall path xyz sq bf,
          WriteFile path (PdbFile xyz sq bf) ∈ evs ->
          path = out_prefix_of s i +:+ ".pdb" /\ sq = final_seq)
    /\ length final_seq = length seq_init
    /\ forall (k : nat) row,
         seq_init !! k = Some row ->
         exists c,
           Torch.argmax_row gtb row = Some c
           /\ (c = 21 -> final_seq !! k = Some 7)
           /\ (c <> 21 -> final_seq !! k = Some c).
Proof.
  intros Hrun. apply design_completed in Hrun
    as (x_init & seq_init & steps & am & first & Htr & Hsteps & _ & _ & _
        & Ham & _).
  eexists _, x_init, seq_init, _. split; [exact Htr|].
  split; [done|]. split.
  { eexists _, _. apply elem_of_cons. right. apply elem_of_app. right.
    by apply saved_pdb. }
  split.
  { intros path xyz sq bf Hin%file_written_in_saved; [|done].
    apply saved_pdb in Hin. by destruct Hin as (? & _ & ? & ?). }
  apply argmax_lookup in Ham as [Hlen Hrows].
  split; [by rewrite length_map|].
  intros k row Hk. destruct (Hrows _ _ Hk) as (c & Hc & Hamk).
  exists c. split; [done|]. rewrite list_lookup_fmap, Hamk. simpl.
  split.
  - by intros ->.
  - intros Hne. by destruct (Z.eqb_spec c 21).
Qed.

(** C7. In a design that completes, the b-factor vector written with
    the final structure has one entry per residue: 0 where the argmax
    category of the initial sequence is 21, and 1 elsewhere. *)
Theorem bfacts_flag_diffused conf (s : Sampler) i (w : world) acc w' :
  design gtb backbone seeded conf s i w = (Ok (Some acc), w') ->
  exists evs x_init seq_init bfacts,
    trace w' = trace w ++ evs
    /\ head evs = Some (SampleInit (Returns (x_init, seq_init)))
    /\ (exists xyz sq,
          WriteFile (out_prefix_of s i +:+ ".pdb")
            (PdbFile xyz sq (Torch.Vector bfacts)) ∈ evs)
    /\ (forall path xyz sq bf,
          WriteFile path (PdbFile xyz sq bf) ∈ evs ->
          bf = Torch.Vector bfacts)
    /\ length bfacts = length seq_init
    /\ forall (k : nat) row,
         seq_init !! k = Some row ->
         exists c,
           Torch.argmax_row gtb row = Some c
           /\ (c = 21 -> bfacts !! k = Some 0)
           /\ (c <> 21 -> bfacts !! k = Some 1).
Proof.
  intros Hrun. apply design_completed in Hrun
    as (x_init & seq_init & steps & am & first & Htr & Hsteps & _ & _ & _
        & Ham & _).
  eexists _, x_init, seq_init, _. split; [exact Htr|].
  split; [done|]. split.
  { eexists _, _. apply elem_of_cons. right. apply elem_of_app. right.
    by apply saved_pdb. }
  split.
  { intros path xyz sq bf Hin%file_written_in_saved; [|done].
    apply saved_pdb in Hin. by destruct Hin as (? & _ & ? & ?). }
  apply argmax_lookup in Ham as [Hlen Hrows].
  split; [by rewrite length_map|].
  intros k row Hk. destruct (Hrows _ _ Hk) as (c & Hc & Hamk).
  exists c. split; [done|]. rewrite list_lookup_fmap, Hamk. simpl.
  split.
  - by intros ->.
  - intros Hne. by destruct (Z.eqb_spec c 21).
Qed.

Lemma rev_lookup {A} (l : list A) (k : nat) :
  (k < length l)%nat -> rev l !! k = l !! (length l - 1 - k)%nat.
Proof.
  intros Hk. rewrite rev_alt. fold (reverse l).
  rewrite (reverse_lookup l k Hk). f_equal. lia.
Qed.

Lemma collected_lengths (acc : @accumulators X scalar) rs :
  collected no_steps acc rs ->
  denoised_xyz_stack acc = map res_x_t rs
  /\ px0_xyz_stack acc = map res_px0 rs
  /\ seq_stack acc = map res_seq rs
  /\ map Some (plddt_stack acc) = map (fun r => head (res_plddt r)) rs.
Proof.
  intros (Hd & Hp & Hq & ps & Hl & Hps). simpl in *.
  by rewrite Hl, Hps.
Qed.

(** C3. In a design that completes with trajectories enabled, the two
    stacks written to the trajectory artifacts are the accumulators of
    the timestep loop in reverse: with N the number of iterations,
    entry k of the written denoised (respectively px0) stack is entry
    N-1-k of the denoised (respectively px0) accumulator, the
    accumulators holding the steps' outputs in the order the steps
    ran. *)
Theorem trajectories_are_reversed conf (s : Sampler) i (w : world)
    acc w' :
  design gtb backbone seeded conf s i w = (Ok (Some acc), w') ->
  write_trajectory (inf_conf s) = true ->
  exists evs traj_prefix xt_out px0_out bf sq,
    let N := length (timesteps s) in
    trace w' = trace w ++ evs
    /\ denoised_xyz_stack acc = map res_x_t (omap step_result evs)
    /\ px0_xyz_stack acc = map res_px0 (omap step_result evs)
    /\ WriteFile (traj_prefix +:+ "_Xt-1_traj.pdb") (TrajFile xt_out bf sq)
         ∈ evs
    /\ WriteFile (traj_prefix +:+ "_pX0_traj.pdb") (TrajFile px0_out bf sq)
         ∈ evs
    /\ (forall path st b q,
          WriteFile path (TrajFile st b q) ∈ evs ->
          path = traj_prefix +:+ "_Xt-1_traj.pdb" /\ st = xt_out
          \/ path = traj_prefix +:+ "_pX0_traj.pdb" /\ st = px0_out)
    /\ length (denoised_xyz_stack acc) = N
    /\ length (px0_xyz_stack acc) = N
    /\ length xt_out = N /\ length px0_out = N
    /\ forall k : nat, (k < N)%nat ->
         xt_out !! k = denoised_xyz_stack acc !! (N - 1 - k)%nat
         /\ px0_out !! k = px0_xyz_stack acc !! (N - 1 - k)%nat.
Proof.
  intros Hrun Htraj. apply design_completed in Hrun
    as (x_init & seq_init & steps & am & first & Htr & Hsteps & _ & Hlen
        & Hcol & _).
  apply collected_lengths in Hcol as (Hd & Hp & _ & _).
  eexists _, _, (Torch.flip0 (denoised_xyz_stack acc)),
    (Torch.flip0 (px0_xyz_stack acc)), _, _.
  split; [exact Htr|]. rewrite results_of_design.
  split; [done|]. split; [done|]. split.
  { apply elem_of_cons. right. apply elem_of_app. right.
    apply saved_traj. split; [done|]. split; [done|]. split; [done|].
    left. split; reflexivity. }
  split.
  { apply elem_of_cons. right. apply elem_of_app. right.
    apply saved_traj. split; [done|]. split; [done|]. split; [done|].
    right. split; reflexivity. }
  split.
  { intros path st b q Hin%file_written_in_saved; [|done].
    apply saved_traj in Hin as (_ & _ & _ & [[-> ->] | [-> ->]]); auto. }
  assert (Hnd : length (denoised_xyz_stack acc) = length (timesteps s)).
  { by rewrite Hd, length_map. }
  assert (Hnp : length (px0_xyz_stack acc) = length (timesteps s)).
  { by rewrite Hp, length_map. }
  unfold Torch.flip0. rewrite !length_rev.
  repeat (split; [done|]).
  intros k Hk. rewrite !rev_lookup by lia. by rewrite Hnd, Hnp.
Qed.

(** C8. In a design that completes, the confidence stack recorded in
    the metadata artifact [<out_prefix>.trb] is the loop's confidence
    accumulator as it stands: one entry per iteration, in the order
    the steps ran, the k-th being the leading entry [plddt[0]] of the
    confidence tensor the k-th step returned (which is that tensor
    without its leading dimension when this dimension has size one). *)
Theorem plddt_in_generation_order conf (s : Sampler) i (w : world)
    acc w' :
  design gtb backbone seeded conf s i w = (Ok (Some acc), w') ->
  exists evs plddt,
    trace w' = trace w ++ evs
    /\ WriteFile (out_prefix_of s i +:+ ".trb") (TrbFile plddt) ∈ evs
    /\ (forall path pl, WriteFile path (TrbFile pl) ∈ evs ->
          path = out_prefix_of s i +:+ ".trb" /\ pl = plddt)
    /\ plddt = plddt_stack acc
    /\ length plddt = length (timesteps s)
    /\ length (omap step_result evs) = length (timesteps s)
    /\ forall (k : nat) r,
         omap step_result evs !! k = Some r ->
         plddt !! k = head (res_plddt r)
         /\ forall p, res_plddt r = [p] -> plddt !! k = Some p.
Proof.
  intros Hrun. apply design_completed in Hrun
    as (x_init & seq_init & steps & am & first & Htr & Hsteps & _ & Hlen
        & Hcol & _).
  apply collected_lengths in Hcol as (_ & _ & _ & Hpl).
  eexists _, (plddt_stack acc). split; [exact Htr|].
  rewrite results_of_design. split.
  { apply elem_of_cons. right. apply elem_of_app. right.
    by apply saved_trb. }
  split.
  { intros path pl Hin%file_written_in_saved; [|done].
    by apply saved_trb in Hin. }
  split; [done|].
  assert (Hn : length (plddt_stack acc) = length (timesteps s)).
  { rewrite <- Hlen. apply (f_equal length) in Hpl.
    by rewrite !length_map in Hpl. }
  repeat (split; [done|]).
  intros k r Hk.
  assert (Hh : Some <$> plddt_stack acc !! k = Some (head (res_plddt r))).
  { rewrite <- list_lookup_fmap. change (fmap Some) with (map (@Some (list scalar))).
    rewrite Hpl, list_lookup_fmap, Hk. done. }
  destruct (plddt_stack acc !! k) as [p0|] eqn:Hp0; [|done].
  injection Hh as Hh. split; [done|].
  intros p Hr. by rewrite Hh, Hr.
Qed.

(** *** The resume scan *)

Lemma scan_indices_suffixes existing indices :
  scan_indices existing indices = indices ++ suffixes existing.
Proof.
  revert indices. induction existing as [|e rest IH]; intros indices.
  - by rewrite app_nil_r.
  - simpl. unfold suffixes. simpl.
    destruct (Py.re_match_index e) as [m|]; simpl.
    + rewrite IH, <- app_assoc. done.
    + apply IH.
Qed.

Lemma fold_max_shift x a l :
  fold_right Z.max (Z.max x a) l = Z.max a (fold_right Z.max x l).
Proof. induction l as [|b l IH]; simpl; [lia|]. rewrite IH. lia. Qed.

Lemma fold_left_max x l : fold_left Z.max l x = fold_right Z.max x l.
Proof.
  revert x. induction l as [|a l IH]; intros x; simpl; [done|].
  by rewrite IH, fold_max_shift.
Qed.

Lemma fold_max_bounds x l :
  x <= fold_right Z.max x l
  /\ (forall n, n ∈ l -> n <= fold_right Z.max x l)
  /\ (fold_right Z.max x l = x \/ fold_right Z.max x l ∈ l).
Proof.
  induction l as [|a l (IH1 & IH2 & IH3)]; simpl.
  - split; [lia|]. split; [|by left]. intros n Hn. by apply elem_of_nil in Hn.
  - split; [lia|]. split.
    + intros n [-> | Hn]%elem_of_cons; [lia|]. specialize (IH2 _ Hn). lia.
    + destruct (Z.max_spec a (fold_right Z.max x l)) as [[_ ->] | [_ ->]].
      * destruct IH3 as [-> | Hin]; [by left | right; by constructor].
      * right. by left.
Qed.


(** *** Determinism *)

Lemma world_blind_ret {A} (a : A) : world_blind (ret a : M A).
Proof. by intros w1 w2. Qed.

Lemma world_blind_or_raise {A} e (o : option A) :
  world_blind (or_raise e o : M A).
Proof. intros w1 w2. by destruct o. Qed.

Lemma world_blind_bind {A B} (m : M A) (k : A -> M B) :
  world_blind m -> (forall a, world_blind (k a)) -> world_blind (bind m k).
Proof.
  intros Hm Hk w1 w2. unfold bind. specialize (Hm w1 w2).
  destruct (m w1) as [o1 w1'], (m w2) as [o2 w2']. simpl in Hm. subst o2.
  destruct o1 as [a|e]; [apply Hk | done].
Qed.

Lemma world_blind_makedirs name : world_blind (makedirs name : M unit).
Proof. intros w1 w2. unfold makedirs. by case_decide. Qed.

Lemma world_blind_write_file path a :
  world_blind (write_file path a : M unit).
Proof. by intros w1 w2. Qed.

Lemma world_blind_when b (m : M unit) :
  world_blind m -> world_blind (when b m).
Proof. destruct b; [done|]. intros _. apply world_blind_ret. Qed.

Lemma world_blind_save_outputs (s : Sampler) p q acc :
  world_blind (save_outputs gtb backbone s p q acc).
Proof.
  unfold save_outputs.
  repeat first
    [ apply world_blind_bind; [|intros ?]
    | apply world_blind_or_raise
    | apply world_blind_makedirs
    | apply world_blind_write_file
    | apply world_blind_when ].
Qed.

Lemma call_sample_init_deterministic (s : Sampler) (w1 w2 : world) :
  deterministic_sampler s -> rng w1 = rng w2 ->
  (call_sample_init s w1).1 = (call_sample_init s w2).1
  /\ rng (call_sample_init s w1).2 = rng (call_sample_init s w2).2.
Proof.
  intros [Hinit _] Hrng. unfold call_sample_init. rewrite Hrng.
  destruct (Hinit (sampler_state w1) (sampler_state w2) (rng w2))
    as [Hres Hg].
  destruct (sample_init s (sampler_state w1) (rng w2)) as [[r1 h1] g1].
  destruct (sample_init s (sampler_state w2) (rng w2)) as [[r2 h2] g2].
  simpl in *. by subst.
Qed.

Lemma call_sample_step_deterministic (s : Sampler) t x q f (w1 w2 : world) :
  deterministic_sampler s -> rng w1 = rng w2 ->
  (call_sample_step s t x q f w1).1 = (call_sample_step s t x q f w2).1
  /\ rng (call_sample_step s t x q f w1).2
     = rng (call_sample_step s t x q f w2).2.
Proof.
  intros [_ Hstep] Hrng. unfold call_sample_step. rewrite Hrng.
  destruct (Hstep t x q f (sampler_state w1) (sampler_state w2) (rng w2))
    as [Hres Hg].
  destruct (sample_step s t x q f (sampler_state w1) (rng w2))
    as [[r1 h1] g1].
  destruct (sample_step s t x q f (sampler_state w2) (rng w2))
    as [[r2 h2] g2].
  simpl in *. by subst.
Qed.

Lemma diffusion_loop_deterministic (s : Sampler) ts x q acc (w1 w2 : world) :
  deterministic_sampler s -> rng w1 = rng w2 ->
  (diffusion_loop s ts x q acc w1).1 = (diffusion_loop s ts x q acc w2).1
  /\ rng (diffusion_loop s ts x q acc w1).2
     = rng (diffusion_loop s ts x q acc w2).2.
Proof.
  intros Hdet. revert x q acc w1 w2.
  induction ts as [|t ts IH]; intros x q acc w1 w2 Hrng; simpl; [done|].
  unfold bind at 1 3 5 7.
  destruct (call_sample_step_deterministic s t x q
              (final_step (inf_conf s)) w1 w2 Hdet Hrng) as [Hres Hg].
  destruct (call_sample_step s t x q _ w1) as [o1 w1'].
  destruct (call_sample_step s t x q _ w2) as [o2 w2'].
  simpl in Hres, Hg. subst o2.
  destruct o1 as [[[[px0 x'] q'] p]|e]; [|done].
  unfold bind. destruct (head p); simpl; [by apply IH | done].
Qed.

Lemma make_design_deterministic (s : Sampler) p (w1 w2 : world) :
  deterministic_sampler s -> rng w1 = rng w2 ->
  (make_design gtb backbone s p w1).1 = (make_design gtb backbone s p w2).1.
Proof.
  intros Hdet Hrng. unfold make_design. unfold bind at 1 4.
  destruct (call_sample_init_deterministic s w1 w2 Hdet Hrng) as [Hres Hg].
  destruct (call_sample_init s w1) as [o1 w1'].
  destruct (call_sample_init s w2) as [o2 w2'].
  simpl in Hres, Hg. subst o2.
  destruct o1 as [[x_init seq_init]|e]; [|done].
  unfold bind at 1 3.
  destruct (diffusion_loop_deterministic s (timesteps s) x_init seq_init
              no_steps w1' w2' Hdet Hg) as [Hres _].
  destruct (diffusion_loop s _ _ _ _ w1') as [o1 w1''].
  destruct (diffusion_loop s _ _ _ _ w2') as [o2 w2''].
  simpl in Hres. subst o2.
  destruct o1 as [acc|e]; [|done].
  unfold bind.
  pose proof (world_blind_save_outputs s p seq_init acc w1'' w2'') as Hsave.
  destruct (save_outputs _ _ s p seq_init acc w1'') as [o1 ?].
  destruct (save_outputs _ _ s p seq_init acc w2'') as [o2 ?].
  simpl in Hsave. subst o2. by destruct o1.
Qed.


(** *** Failures and skips in the batch *)

Lemma design_run conf (s : Sampler) i (w : world) o w' :
  design gtb backbone seeded conf s i w = (o, w') ->
  exists evs,
    trace w' = trace w ++ evs
    /\ (forall e, o = Raise (SamplerError e) ->
          fs w' = fs w /\ Forall is_sampler_call evs)
    /\ (forall ev e, ev ∈ evs -> raised_in ev = Some e ->
          o = Raise (SamplerError e)).
Proof.
  rewrite design_eq.
  destruct (reseeded_frame conf i w) as (Hfs & Htr & _).
  destruct (_ && _).
  - intros [= <- <-]. exists []. rewrite app_nil_r.
    split; [done|]. split; [done|].
    intros ev e Hin. by apply elem_of_nil in Hin.
  - destruct (make_design _ _ _ _ _) as [o1 w1] eqn:Hmake.
    apply make_design_run in Hmake as (evs & Htr1 & Hfail & Hraised).
    rewrite Hfs, Htr in *. intros [= <- <-].
    exists evs. split; [done|]. split.
    + intros e He. destruct o1; [done|]. injection He as ->.
      by apply (Hfail e).
    + intros ev e Hin Hr. by rewrite (Hraised _ _ Hin Hr).
Qed.

(** C6. If a call to [sample_step] raises during a design, then the
    design ends with that exception; between the start of the design
    and the exception the script only called the sampler: no
    directory was made and no file written, and the file system is
    the one the earlier designs of the batch left; the exception ends
    the loop over designs, whatever designs were still to come. *)
Theorem sampler_failure_aborts_batch conf (s : Sampler) done i rest
    (w w1 w2 : world) o evs ev e :
  batch gtb backbone seeded conf s done w = (Ok tt, w1) ->
  design gtb backbone seeded conf s i w1 = (o, w2) ->
  trace w2 = trace w1 ++ evs ->
  ev ∈ evs -> is_step ev -> raised_in ev = Some e ->
  o = Raise (SamplerError e)
  /\ Forall is_sampler_call evs
  /\ fs w2 = fs w1
  /\ batch gtb backbone seeded conf s (done ++ i :: rest) w
     = (Raise (SamplerError e), w2).
Proof.
  intros Hdone Hrun Htr Hin _ Hr.
  destruct (design_run _ _ _ _ _ _ Hrun) as (evs' & Htr' & Hfail & Hraised).
  rewrite Htr in Htr'. apply app_inv_head in Htr' as <-.
  pose proof (Hraised _ _ Hin Hr) as ->.
  destruct (Hfail _ eq_refl) as [Hfs Hcalls].
  repeat (split; [done|]).
  by rewrite batch_app, Hdone, batch_cons, Hrun.
Qed.


(** *** The loop after the last step *)

Lemma full_loop_accumulators (s : Sampler) x q (w : world) acc w' :
  final_step (inf_conf s) <= t_step_input s ->
  diffusion_loop s (timesteps s) x q no_steps w = (Ok acc, w') ->
  (1 <= length (timesteps s))%nat
  /\ denoised_xyz_stack acc <> [] /\ px0_xyz_stack acc <> []
  /\ plddt_stack acc <> [] /\ seq_stack acc <> [].
Proof.
  intros Hle Hrun.
  assert (Hn : (1 <= length (timesteps s))%nat).
  { unfold timesteps. rewrite PyFacts.range_down_length. lia. }
  split; [done|].
  apply diffusion_loop_run in Hrun as (_ & evs & _ & _ & _ & Hok & _).
  destruct (Hok _ eq_refl) as (_ & Hlen & Hcol).
  apply collected_lengths in Hcol as (Hd & Hp & Hq & Hpl).
  apply (f_equal length) in Hd, Hp, Hq, Hpl.
  rewrite length_map in Hd, Hp, Hq. do 2 rewrite length_map in Hpl.
  rewrite Hlen in Hd, Hp, Hq, Hpl.
  assert (Hne : forall (A : Type) (l : list A),
             length l = length (timesteps s) -> l <> []).
  { intros A l Hl ->. simpl in Hl. lia. }
  repeat split; by apply Hne.
Qed.

(** C10, as the script has it.  When [final_step <= t_step_input] the
    timestep loop has at least one iteration, and a loop that ran to
    its end hands non-empty accumulators to the stacking and to
    [seq_stack[-1]], none of which raises. *)
Theorem loop_runs_when_final_le_initial (s : Sampler) :
  final_step (inf_conf s) <= t_step_input s ->
  (1 <= length (timesteps s))%nat
  /\ forall x q (w : world) acc w',
       diffusion_loop s (timesteps s) x q no_steps w = (Ok acc, w') ->
       is_Some (Torch.stack (denoised_xyz_stack acc))
       /\ is_Some (Torch.stack (px0_xyz_stack acc))
       /\ is_Some (Torch.stack (plddt_stack acc))
       /\ is_Some (last (seq_stack acc)).
Proof.
  intros Hle. split.
  { unfold timesteps. rewrite PyFacts.range_down_length. lia. }
  intros x q w acc w' Hrun.
  destruct (full_loop_accumulators s x q w acc w' Hle Hrun)
    as (_ & Hd & Hp & Hpl & Hq).
  assert (Hst : forall (A : Type) (l : list A),
             l <> [] -> is_Some (Torch.stack l)).
  { intros A [|a l] Hl; [done | by eexists]. }
  repeat (split; [by apply Hst|]).
  destruct (last (seq_stack acc)) eqn:Hlast; [by eexists|].
  by apply last_None in Hlast.
Qed.

(** *** Designs that complete *)

Lemma save_outputs_completes (s : Sampler) p seq_init acc am (w : world) :
  denoised_xyz_stack acc <> [] -> px0_xyz_stack acc <> [] ->
  plddt_stack acc <> [] -> seq_stack acc <> [] ->
  Torch.argmax gtb seq_init = Some am -> length am <> 1%nat ->
  Py.dirname p <> "" ->
  exists w', save_outputs gtb backbone s p seq_init acc w = (Ok tt, w').
Proof.
  intros Hd Hp Hpl Hq Ham Hone Hdir. unfold save_outputs.
  assert (Hst : forall (A : Type) (l : list A), l <> [] -> Torch.stack l = Some l).
  { by intros A []. }
  rewrite !Hst by done. simpl. unfold bind at 1 2 3. simpl.
  unfold bind at 1, makedirs. case_decide; [done|].
  destruct (last (seq_stack acc)) as [fsq|] eqn:Hlast.
  2:{ apply last_None in Hlast. done. }
  simpl. unfold bind at 1. simpl. rewrite Ham. simpl.
  unfold bind at 1 2 3. simpl.
  pose proof (proj2 (bfacts_mask am _) (conj Hone eq_refl)) as Hbf.
  rewrite Hbf. simpl. unfold bind at 1. simpl.
  destruct (head (Torch.flip0 (denoised_xyz_stack acc))) as [first|] eqn:Hfirst.
  2:{ unfold Torch.flip0 in Hfirst. rewrite head_rev in Hfirst.
      by apply last_None in Hfirst. }
  simpl. unfold bind at 1 2 3. simpl.
  destruct (write_trajectory (inf_conf s)); simpl; [|by eexists].
  unfold bind at 1, makedirs. case_decide as Hdt.
  { by apply PyFacts.traj_dirname_nonempty in Hdt. }
  unfold bind. simpl. by eexists.
Qed.

(** A design that is not skipped completes when the sampler returns:
    [sample_init] with a sequence of other than one residue whose rows
    are not empty, every [sample_step] with a confidence tensor that has
    a leading entry; when the timesteps are not exhausted from the
    start; and when the output prefix names a directory. *)
Lemma design_completes conf (s : Sampler) i (w : world) :
  cautious (inf_conf s)
    && exists_in (fs w) (out_prefix_of s i +:+ ".pdb") = false ->
  (forall h g, exists x q am h' g',
      sample_init s h g = (Returns (x, q), h', g')
      /\ Torch.argmax gtb q = Some am /\ length am <> 1%nat) ->
  step_returns s ->
  final_step (inf_conf s) <= t_step_input s ->
  Py.dirname (out_prefix_of s i) <> "" ->
  exists acc w', design gtb backbone seeded conf s i w = (Ok (Some acc), w').
Proof.
  intros Hrun Hinit Hsteps Hle Hdir. rewrite design_eq, Hrun.
  set (w0 := reseeded seeded conf i w).
  unfold make_design, bind at 1, call_sample_init.
  destruct (Hinit (sampler_state w0) (rng w0))
    as (x & q & am & h' & g' & -> & Ham & Hone).
  simpl. unfold bind at 1.
  match goal with
  | |- context [diffusion_loop s (timesteps s) x q no_steps ?w1] =>
      destruct (diffusion_loop_total s Hsteps (timesteps s) x q no_steps w1)
        as (acc & w2 & Hloop)
  end.
  rewrite Hloop.
  destruct (full_loop_accumulators s _ _ _ _ _ Hle Hloop)
    as (_ & Hd & Hp & Hpl & Hq).
  destruct (save_outputs_completes s (out_prefix_of s i) q acc am w2
              Hd Hp Hpl Hq Ham Hone Hdir) as (w3 & Hsave).
  unfold bind. rewrite Hsave. simpl. by eexists _, _.
Qed.
End Facts.
End InferenceFacts.

(** ** What the script leaves behind *)

Module DesignFacts.
Import Inference InferenceFacts.

Section Facts.
#[local] Set Default Proof Using "Type".
Context {X scalar Gen Hid Err : Type}.
Context (gtb : scalar -> scalar -> bool) (backbone : X -> X)
        (seeded : Z -> Gen)
        (glob : @filesystem X scalar -> string -> list string).

Local Abbreviation Sampler := (@Sampler X scalar Gen Hid Err).
Local Abbreviation world := (@world X scalar Gen Hid Err).
Local Abbreviation M := (@M X scalar Gen Hid Err).
Local Abbreviation event := (@event X scalar Err).
Local Abbreviation filesystem := (@filesystem X scalar).

(** *** The names of the artifacts *)

Lemma string_app_inv_head (a b c : string) : a +:+ b = a +:+ c -> b = c.
Proof.
  intros Heq. apply PyFacts.list_of_string_inj.
  apply (f_equal String.list_ascii_of_string) in Heq.
  rewrite !PyFacts.list_ascii_app in Heq. by apply app_inv_head in Heq.
Qed.

Lemma string_app_assoc (a b c : string) : (a +:+ b) +:+ c = a +:+ b +:+ c.
Proof.
  apply PyFacts.list_of_string_inj.
  by rewrite !PyFacts.list_ascii_app, <- app_assoc.
Qed.

Lemma index_part_no_slash i : Py.no_slash ("_" +:+ Py.format_05d i).
Proof.
  unfold Py.no_slash. rewrite PyFacts.list_ascii_app. simpl.
  constructor; [done|].
  eapply Forall_impl; [apply PyFacts.format_05d_chars|].
  intros c [Hc | ->]; [|done]. intros ->. done.
Qed.

Lemma suffix_no_slash sfx : sfx ∈ artifact_suffixes -> Py.no_slash sfx.
Proof.
  unfold artifact_suffixes. rewrite !elem_of_cons, elem_of_nil.
  intros [-> | [-> | [-> | [-> | []]]]]; unfold Py.no_slash; simpl;
    repeat constructor; done.
Qed.

(** The last component of each of the four names: that of the output
    prefix, the formatted index, and the suffix of the artifact. *)
Lemma design_paths_basename (s : Sampler) i (k : nat) path :
  design_paths s i !! k = Some path ->
  exists sfx,
    artifact_suffixes !! k = Some sfx
    /\ Py.basename path
       = Py.basename (output_prefix (inf_conf s)) +:+ "_"
           +:+ Py.format_05d i +:+ sfx.
Proof.
  intros Hk.
  assert (Hout : Py.basename (out_prefix_of s i)
                 = Py.basename (output_prefix (inf_conf s)) +:+ "_"
                     +:+ Py.format_05d i).
  { unfold out_prefix_of. by rewrite PyFacts.basename_app
      by apply index_part_no_slash. }
  assert (Htraj : Py.basename (traj_prefix_of s i)
                  = Py.basename (out_prefix_of s i)).
  { apply PyFacts.traj_prefix_parts. }
  destruct k as [|[|[|[|k]]]]; simpl in Hk; try done;
    injection Hk as <-; eexists; (split; [reflexivity|]);
    rewrite PyFacts.basename_app
      by (apply suffix_no_slash; unfold artifact_suffixes;
          rewrite !elem_of_cons; auto);
    rewrite ?Htraj, Hout, !string_app_assoc; done.
Qed.

Lemma index_then_suffix i sfx :
  sfx ∈ artifact_suffixes ->
  Py.span (fun c => Py.is_digit c || bool_decide (c = "-"%char))
    (String.list_ascii_of_string (Py.format_05d i +:+ sfx))
  = (String.list_ascii_of_string (Py.format_05d i),
     String.list_ascii_of_string sfx).
Proof.
  intros Hsfx. rewrite PyFacts.list_ascii_app.
  assert (Hhead : exists c rest,
             String.list_ascii_of_string sfx = c :: rest
             /\ Py.is_digit c || bool_decide (c = "-"%char) = false).
  { unfold artifact_suffixes in Hsfx.
    rewrite !elem_of_cons, elem_of_nil in Hsfx.
    destruct Hsfx as [-> | [-> | [-> | [-> | []]]]]; by eexists _, _. }
  destruct Hhead as (c & rest & -> & Hc).
  apply PyFacts.span_app; [|done].
  eapply Forall_impl; [apply PyFacts.format_05d_chars|].
  intros c' [-> | ->]; [done|]. by rewrite orb_true_r.
Qed.

(** Two of the names coincide only for the same index and the same
    artifact. *)
Lemma design_paths_inj (s : Sampler) i j (k k' : nat) path :
  design_paths s i !! k = Some path ->
  design_paths s j !! k' = Some path ->
  i = j /\ k = k'.
Proof.
  clear gtb backbone seeded glob. intros Hi Hj.
  destruct (design_paths_basename s i k path Hi) as (sfx & Hk & Hb).
  destruct (design_paths_basename s j k' path Hj) as (sfx' & Hk' & Hb').
  rewrite Hb in Hb'. do 2 apply string_app_inv_head in Hb'.
  pose proof (index_then_suffix i sfx (list_elem_of_lookup_2 _ _ _ Hk)) as Hs.
  pose proof (index_then_suffix j sfx' (list_elem_of_lookup_2 _ _ _ Hk')) as Hs'.
  rewrite Hb' in Hs. rewrite Hs in Hs'. injection Hs' as Hfmt Hsfx.
  apply PyFacts.list_of_string_inj in Hfmt, Hsfx.
  apply PyFacts.format_05d_inj in Hfmt. split; [done|]. subst sfx'.
  assert (Hnd : NoDup artifact_suffixes).
  { unfold artifact_suffixes. repeat constructor;
      rewrite ?elem_of_cons, ?elem_of_nil; intuition discriminate. }
  by eapply NoDup_lookup.
Qed.

(** *** The file system behind a trace *)

Lemma replay_app (f : filesystem) (evs1 evs2 : list event) :
  replay f (evs1 ++ evs2) = replay (replay f evs1) evs2.
Proof. apply fold_left_app. Qed.

Lemma written_app (evs1 evs2 : list event) :
  written (evs1 ++ evs2) = written evs1 ++ written evs2.
Proof. apply omap_app. Qed.

Lemma replay_sampler_calls (f : filesystem) (evs : list event) :
  Forall is_sampler_call evs -> replay f evs = f /\ written evs = [].
Proof.
  induction 1 as [|ev evs Hev _ [IH1 IH2]]; [done|].
  destruct ev; try done.
Qed.

Lemma replay_files_other (f : filesystem) (evs : list event) path :
  path ∉ written evs -> files (replay f evs) !! path = files f !! path.
Proof.
  revert f. induction evs as [|ev evs IH]; intros f Hnot; [done|].
  change (replay f (ev :: evs)) with (replay (apply_event f ev) evs).
  destruct ev as [| | |p a]; simpl in Hnot; try (by rewrite IH).
  rewrite IH by (intros Hin; apply Hnot; by right).
  simpl. apply lookup_insert_ne. intros ->. apply Hnot. by left.
Qed.

Lemma replay_exists_mono (f : filesystem) (evs : list event) path :
  exists_in f path = true -> exists_in (replay f evs) path = true.
Proof.
  clear gtb backbone seeded glob. revert f. induction evs as [|ev evs IH]; intros f Hex; [done|].
  change (replay f (ev :: evs)) with (replay (apply_event f ev) evs).
  apply IH. unfold exists_in in *.
  apply orb_true_iff in Hex as [Hex | Hex]; apply orb_true_iff;
    apply bool_decide_eq_true in Hex.
  - left. apply bool_decide_eq_true.
    destruct ev as [| | |p a]; simpl; try done.
    destruct (decide (p = path)) as [->|Hne].
    + rewrite lookup_insert_eq. by eexists.
    + by rewrite lookup_insert_ne.
  - right. apply bool_decide_eq_true.
    destruct ev; simpl; try done. set_solver.
Qed.

Lemma replay_written_exists (f : filesystem) (evs : list event) path :
  path ∈ written evs -> exists_in (replay f evs) path = true.
Proof.
  revert f. induction evs as [|ev evs IH]; intros f Hin.
  { by apply elem_of_nil in Hin. }
  change (replay f (ev :: evs)) with (replay (apply_event f ev) evs).
  destruct ev as [| | |p a]; simpl in Hin; try (by apply IH).
  apply elem_of_cons in Hin as [-> | Hin]; [|by apply IH].
  apply replay_exists_mono. unfold exists_in. apply orb_true_iff. left.
  apply bool_decide_eq_true. simpl. rewrite lookup_insert_eq. by eexists.
Qed.

(** *** Every statement of the script is accounted for *)

Lemma accounted_mono {A} (P Q : string -> Prop) (m : M A) :
  (forall path, P path -> Q path) -> accounted P m -> accounted Q m.
Proof.
  intros HPQ Hm w o w' Hrun.
  destruct (Hm _ _ _ Hrun) as (evs & Htr & Hfs & Hw).
  exists evs. repeat (split; [done|]). by eapply Forall_impl.
Qed.

Lemma accounted_silent {A} P (m : M A) :
  (forall w o w', m w = (o, w') -> trace w' = trace w /\ fs w' = fs w) ->
  accounted P m.
Proof.
  intros Hm w o w' Hrun. destruct (Hm _ _ _ Hrun) as [Htr Hfs].
  exists []. rewrite app_nil_r. by repeat split.
Qed.

Lemma accounted_ret {A} P (a : A) : accounted P (ret a : M A).
Proof. apply accounted_silent. by intros w o w' [= <- <-]. Qed.

Lemma accounted_or_raise {A} P e (o : option A) :
  accounted P (or_raise e o : M A).
Proof. apply accounted_silent. destruct o; by intros w o' w' [= <- <-]. Qed.

Lemma accounted_bind {A B} P (m : M A) (k : A -> M B) :
  accounted P m -> (forall a, accounted P (k a)) -> accounted P (bind m k).
Proof.
  intros Hm Hk w o w'. unfold bind.
  destruct (m w) as [[a|e] w1] eqn:Hmw.
  - intros Hkw. destruct (Hm _ _ _ Hmw) as (ev1 & Ht1 & Hf1 & Hw1).
    destruct (Hk _ _ _ _ Hkw) as (ev2 & Ht2 & Hf2 & Hw2).
    exists (ev1 ++ ev2). rewrite Ht2, Ht1, <- app_assoc.
    split; [done|]. rewrite replay_app, <- Hf1. split; [done|].
    rewrite written_app. by apply Forall_app.
  - intros [= <- <-]. by apply (Hm _ _ _ Hmw).
Qed.

Lemma accounted_when P b (m : M unit) :
  accounted P m -> accounted P (when b m).
Proof. destruct b; [done|]. intros _. apply accounted_ret. Qed.

Lemma accounted_for_each {A} P (l : list A) (body : A -> M unit) :
  (forall a, accounted P (body a)) -> accounted P (for_each l body).
Proof.
  intros Hbody. induction l as [|a l IH]; simpl.
  - apply accounted_ret.
  - apply accounted_bind; [apply Hbody | by intros _].
Qed.

Lemma accounted_make_deterministic P z :
  accounted P (make_deterministic seeded z : M unit).
Proof. apply accounted_silent. by intros w o w' [= <- <-]. Qed.

Lemma accounted_path_exists P path : accounted P (path_exists path : M bool).
Proof. apply accounted_silent. by intros w o w' [= <- <-]. Qed.

Lemma accounted_glob_glob P pattern :
  accounted P (glob_glob glob pattern : M (list string)).
Proof. apply accounted_silent. by intros w o w' [= <- <-]. Qed.

Lemma accounted_call_sample_init P (s : Sampler) :
  accounted P (call_sample_init s).
Proof.
  intros w o w'. unfold call_sample_init.
  destruct (sample_init s _ _) as [[res h] g]. intros [= <- <-].
  eexists [_]. by repeat split.
Qed.

Lemma accounted_call_sample_step P (s : Sampler) t x q f :
  accounted P (call_sample_step s t x q f).
Proof.
  intros w o w'. unfold call_sample_step.
  destruct (sample_step s _ _ _ _ _ _) as [[res h] g]. intros [= <- <-].
  eexists [_]. by repeat split.
Qed.

Lemma accounted_makedirs P name : accounted P (makedirs name : M unit).
Proof.
  intros w o w'. unfold makedirs. case_decide.
  - intros [= <- <-]. exists []. rewrite app_nil_r. by repeat split.
  - intros [= <- <-]. eexists [_]. by repeat split.
Qed.

Lemma accounted_write_file (P : string -> Prop) path a :
  P path -> accounted P (write_file path a : M unit).
Proof.
  intros HP w o w' [= <- <-]. eexists [_]. repeat split. simpl.
  by repeat constructor.
Qed.

Lemma accounted_diffusion_loop P (s : Sampler) ts x q acc :
  accounted P (diffusion_loop s ts x q acc).
Proof.
  revert x q acc. induction ts as [|t ts IH]; intros x q acc; simpl.
  - apply accounted_ret.
  - apply accounted_bind; [apply accounted_call_sample_step|].
    intros [[[px0 x'] q'] p].
    apply accounted_bind; [apply accounted_or_raise|]. intros p0. apply IH.
Qed.

Lemma accounted_save_outputs (s : Sampler) i q acc :
  accounted (fun path => path ∈ design_paths s i)
    (save_outputs gtb backbone s (out_prefix_of s i) q acc).
Proof.
  unfold save_outputs, design_paths, traj_prefix_of.
  repeat first
    [ apply accounted_bind; [|intros ?]
    | apply accounted_or_raise
    | apply accounted_makedirs
    | apply accounted_write_file; rewrite !elem_of_cons; by auto
    | apply accounted_when ].
Qed.

Lemma accounted_design conf (s : Sampler) i :
  accounted (fun path => path ∈ design_paths s i)
    (design gtb backbone seeded conf s i).
Proof.
  unfold design, make_design.
  apply accounted_bind;
    [apply accounted_when, accounted_make_deterministic|]. intros _.
  apply accounted_bind.
  { destruct (cautious (inf_conf s));
      [apply accounted_path_exists | apply accounted_ret]. }
  intros [|]; [apply accounted_ret|].
  apply accounted_bind; [|intros ?; apply accounted_ret].
  apply accounted_bind; [apply accounted_call_sample_init|].
  intros [x_init seq_init].
  apply accounted_bind; [apply accounted_diffusion_loop|]. intros acc.
  apply accounted_bind; [apply accounted_save_outputs|]. intros _.
  apply accounted_ret.
Qed.

Lemma accounted_resolve_startnum P (s : Sampler) :
  accounted P (resolve_startnum glob s).
Proof.
  unfold resolve_startnum. destruct (_ =? _); [|apply accounted_ret].
  apply accounted_bind; [apply accounted_glob_glob|]. intros existing.
  apply accounted_bind; [apply accounted_or_raise|]. intros m.
  apply accounted_ret.
Qed.

(** *** What one design leaves on disk *)

Lemma design_exists_mono conf (s : Sampler) i (w : world) o w' path :
  design gtb backbone seeded conf s i w = (o, w') ->
  exists_in (fs w) path = true ->
  exists_in (fs w') path = true.
Proof.
  intros Hrun Hex.
  destruct (accounted_design conf s i _ _ _ Hrun) as (evs & _ & Hfs & _).
  rewrite Hfs. by apply replay_exists_mono.
Qed.

(** X1.  A design, however it ends, leaves every file other than its
    own four artifacts as it found it, and removes no file and no
    directory that [os.path.exists] saw before. *)
Theorem design_frame conf (s : Sampler) i (w : world) o w' :
  design gtb backbone seeded conf s i w = (o, w') ->
  (forall path, path ∉ design_paths s i ->
     files (fs w') !! path = files (fs w) !! path)
  /\ (forall path, exists_in (fs w) path = true ->
        exists_in (fs w') path = true).
Proof.
  intros Hrun.
  destruct (accounted_design conf s i _ _ _ Hrun) as (evs & _ & Hfs & Hw).
  rewrite Hfs. split.
  - intros path Hnot. apply replay_files_other. intros Hin. apply Hnot.
    rewrite Forall_forall in Hw. by apply Hw.
  - intros path Hex. by apply replay_exists_mono.
Qed.

(** X2.  A design never touches an artifact of another design index:
    the four names of index [j] keep their content through the design
    of any other index [i]. *)
Theorem design_preserves_other_designs conf (s : Sampler) i j (w : world)
    o w' path :
  i <> j ->
  path ∈ design_paths s j ->
  design gtb backbone seeded conf s i w = (o, w') ->
  files (fs w') !! path = files (fs w) !! path.
Proof.
  intros Hne Hj Hrun.
  destruct (accounted_design conf s i _ _ _ Hrun) as (evs & _ & Hfs & Hw).
  rewrite Hfs. apply replay_files_other. intros Hin.
  rewrite Forall_forall in Hw. apply Hw in Hin.
  apply list_elem_of_lookup in Hin as [k Hk], Hj as [k' Hk'].
  by destruct (design_paths_inj s i j k k' path Hk Hk').
Qed.

(** X3.  The four artifact names of a design are pairwise distinct,
    and two designs of different indices share no artifact name,
    whatever the output prefix. *)
Theorem design_names_distinct (s : Sampler) i j :
  NoDup (design_paths s i)
  /\ (i <> j ->
      forall path, path ∈ design_paths s i -> path ∉ design_paths s j).
Proof.
  clear gtb backbone seeded glob. split.
  - apply NoDup_alt. intros k k' path Hk Hk'.
    by destruct (design_paths_inj s i i k k' path Hk Hk').
  - intros Hne path Hi Hj.
    apply list_elem_of_lookup in Hi as [k Hk], Hj as [k' Hk'].
    by destruct (design_paths_inj s i j k k' path Hk Hk').
Qed.

Lemma saved_replay (s : Sampler) i acc fsq bf first (f : filesystem) :
  let p := out_prefix_of s i in
  let f' := replay f (saved backbone s p acc fsq bf first) in
  files f' !! (p +:+ ".pdb") = Some (PdbFile (backbone first) fsq bf)
  /\ files f' !! (p +:+ ".trb") = Some (TrbFile (plddt_stack acc))
  /\ Py.dirname p ∈ dirs f'
  /\ (write_trajectory (inf_conf s) = true ->
      files f' !! (traj_prefix_of s i +:+ "_Xt-1_traj.pdb")
      = Some (TrajFile (Torch.flip0 (denoised_xyz_stack acc)) bf
                (Torch.squeeze fsq))
      /\ files f' !! (traj_prefix_of s i +:+ "_pX0_traj.pdb")
         = Some (TrajFile (Torch.flip0 (px0_xyz_stack acc)) bf
                   (Torch.squeeze fsq))
      /\ Py.dirname p +:+ "/traj" ∈ dirs f')
  /\ (write_trajectory (inf_conf s) = false ->
      files f' !! (traj_prefix_of s i +:+ "_Xt-1_traj.pdb")
      = files f !! (traj_prefix_of s i +:+ "_Xt-1_traj.pdb")
      /\ files f' !! (traj_prefix_of s i +:+ "_pX0_traj.pdb")
         = files f !! (traj_prefix_of s i +:+ "_pX0_traj.pdb")).
Proof.
  clear gtb seeded glob. intros p f'.
  assert (Hne : forall (k k' : nat) a b,
             design_paths s i !! k = Some a ->
             design_paths s i !! k' = Some b -> k <> k' -> a <> b).
  { intros k k' a b Ha Hb Hkk ->.
    by destruct (design_paths_inj s i i k k' b Ha Hb). }
  set (t := Py.dirname p +:+ "/traj/" +:+ Py.basename p).
  assert (H01 : p +:+ ".pdb" <> p +:+ ".trb")
    by (apply (Hne 0%nat 1%nat); [done|done|lia]).
  assert (H02 : p +:+ ".pdb" <> t +:+ "_Xt-1_traj.pdb")
    by (apply (Hne 0%nat 2%nat); [done|done|lia]).
  assert (H03 : p +:+ ".pdb" <> t +:+ "_pX0_traj.pdb")
    by (apply (Hne 0%nat 3%nat); [done|done|lia]).
  assert (H12 : p +:+ ".trb" <> t +:+ "_Xt-1_traj.pdb")
    by (apply (Hne 1%nat 2%nat); [done|done|lia]).
  assert (H13 : p +:+ ".trb" <> t +:+ "_pX0_traj.pdb")
    by (apply (Hne 1%nat 3%nat); [done|done|lia]).
  assert (H23 : t +:+ "_Xt-1_traj.pdb" <> t +:+ "_pX0_traj.pdb")
    by (apply (Hne 2%nat 3%nat); [done|done|lia]).
  assert (Hdir : Py.dirname t = Py.dirname p +:+ "/traj")
    by apply PyFacts.traj_prefix_parts.
  subst f'. unfold saved, replay, traj_prefix_of. fold p. fold t.
  destruct (write_trajectory (inf_conf s)); simpl; rewrite ?Hdir.
  - split; [by rewrite !lookup_insert_ne, lookup_insert_eq by done|].
    split; [by rewrite !lookup_insert_ne, lookup_insert_eq by done|].
    split; [set_solver|].
    split; [|done]. intros _.
    split; [by rewrite lookup_insert_ne, lookup_insert_eq by done|].
    split; [by rewrite lookup_insert_eq | set_solver].
  - split; [by rewrite lookup_insert_ne, lookup_insert_eq by done|].
    split; [by rewrite lookup_insert_eq|].
    split; [set_solver|].
    split; [done|]. intros _.
    by rewrite !lookup_insert_ne by done.
Qed.

(** The file system after a completed design: the one before it with
    the calls of the output stage applied. *)
Lemma design_completed_fs conf (s : Sampler) i (w : world) acc w' :
  design gtb backbone seeded conf s i w = (Ok (Some acc), w') ->
  exists x_init seq_init steps am first,
    let final_seq := map (fun c => if c =? 21 then 7 else c) am in
    let bfacts := Torch.Vector (map (fun c => if c =? 21 then 0 else 1) am) in
    trace w' = trace w ++ SampleInit (Returns (x_init, seq_init)) :: steps
                 ++ saved backbone s (out_prefix_of s i) acc final_seq bfacts first
    /\ Forall is_step steps
    /\ collected no_steps acc (omap step_result steps)
    /\ last (denoised_xyz_stack acc) = Some first
    /\ fs w' = replay (fs w)
                 (saved backbone s (out_prefix_of s i) acc final_seq bfacts first).
Proof.
  intros Hrun.
  destruct (accounted_design conf s i _ _ _ Hrun) as (evs & Htr & Hfs & _).
  apply (design_completed gtb backbone seeded) in Hrun
    as (x_init & seq_init & steps & am & first & Htr' & Hsteps & _ & _
        & Hcol & _ & _ & Hlast & _).
  exists x_init, seq_init, steps, am, first.
  repeat (split; [done|]).
  rewrite Htr in Htr'. apply app_inv_head in Htr' as ->.
  rewrite app_comm_cons, replay_app in Hfs.
  assert (Hcalls : Forall is_sampler_call
            (SampleInit (Returns (x_init, seq_init)) :: steps)).
  { constructor; [done|]. eapply Forall_impl; [done|]. by intros []. }
  apply (replay_sampler_calls (fs w)) in Hcalls as [Hsame _].
  by rewrite Hsame in Hfs.
Qed.

Lemma design_completed_exists conf (s : Sampler) i (w : world) acc w' :
  design gtb backbone seeded conf s i w = (Ok (Some acc), w') ->
  exists_in (fs w') (out_prefix_of s i +:+ ".pdb") = true.
Proof.
  intros Hrun.
  destruct (design_completed_fs conf s i w acc w' Hrun)
    as (x_init & seq_init & steps & am & first & _ & _ & _ & _ & Hfs).
  rewrite Hfs. unfold exists_in. apply orb_true_iff. left.
  apply bool_decide_eq_true.
  erewrite (proj1 (saved_replay s i acc _ _ first (fs w))). by eexists.
Qed.

(** X4.  After a design that completes, the file system holds the
    structure and the metadata of the design under
    [<out_prefix>.pdb] and [<out_prefix>.trb], inside the directory of
    the prefix, which exists; with trajectories enabled it holds both
    flipped stacks under [traj/], and without them the two trajectory
    names are as they were.  No write of the design replaces another
    write of the same design. *)
Theorem completed_design_files conf (s : Sampler) i (w : world) acc w' :
  design gtb backbone seeded conf s i w = (Ok (Some acc), w') ->
  let p := out_prefix_of s i in
  exists xyz final_seq bfacts,
    files (fs w') !! (p +:+ ".pdb") = Some (PdbFile xyz final_seq bfacts)
    /\ files (fs w') !! (p +:+ ".trb") = Some (TrbFile (plddt_stack acc))
    /\ Py.dirname p ∈ dirs (fs w')
    /\ (write_trajectory (inf_conf s) = true ->
        files (fs w') !! (traj_prefix_of s i +:+ "_Xt-1_traj.pdb")
        = Some (TrajFile (rev (denoised_xyz_stack acc)) bfacts
                  (Torch.squeeze final_seq))
        /\ files (fs w') !! (traj_prefix_of s i +:+ "_pX0_traj.pdb")
           = Some (TrajFile (rev (px0_xyz_stack acc)) bfacts
                     (Torch.squeeze final_seq))
        /\ Py.dirname p +:+ "/traj" ∈ dirs (fs w'))
    /\ (write_trajectory (inf_conf s) = false ->
        files (fs w') !! (traj_prefix_of s i +:+ "_Xt-1_traj.pdb")
        = files (fs w) !! (traj_prefix_of s i +:+ "_Xt-1_traj.pdb")
        /\ files (fs w') !! (traj_prefix_of s i +:+ "_pX0_traj.pdb")
           = files (fs w) !! (traj_prefix_of s i +:+ "_pX0_traj.pdb")).
Proof.
  intros Hrun p.
  destruct (design_completed_fs conf s i w acc w' Hrun)
    as (x_init & seq_init & steps & am & first & _ & _ & _ & _ & Hfs).
  rewrite Hfs. eexists _, _, _. apply saved_replay.
Qed.

(** X5.  The structure written for a completed design is the one the
    last step returned as [x_t], cut to its first four atoms per
    residue; the [px0] of that step does not enter. *)
Theorem structure_is_last_step conf (s : Sampler) i (w : world) acc w' :
  design gtb backbone seeded conf s i w = (Ok (Some acc), w') ->
  exists evs r final_seq bfacts,
    trace w' = trace w ++ evs
    /\ last (omap step_result evs) = Some r
    /\ files (fs w') !! (out_prefix_of s i +:+ ".pdb")
       = Some (PdbFile (backbone (res_x_t r)) final_seq bfacts).
Proof.
  intros Hrun.
  destruct (design_completed_fs conf s i w acc w' Hrun)
    as (x_init & seq_init & steps & am & first & Htr & Hsteps & Hcol & Hlast
        & Hfs).
  apply collected_lengths in Hcol as (Hd & _).
  rewrite Hd in Hlast.
  change (map res_x_t ?l) with (res_x_t <$> l) in Hlast.
  rewrite fmap_last in Hlast.
  apply fmap_Some in Hlast as (r & Hr & ->).
  eexists _, r, _, _. split; [exact Htr|].
  rewrite results_of_design. split; [done|].
  rewrite Hfs. apply saved_replay.
Qed.

(** X6.  In the cautious mode a design that completed is skipped when
    it is run again, in the world it left and in any world reached from
    there by further designs of the batch. *)
Theorem completed_design_is_skipped conf (s : Sampler) i (w : world)
    acc w' later (w1 : world) :
  cautious (inf_conf s) = true ->
  design gtb backbone seeded conf s i w = (Ok (Some acc), w') ->
  batch gtb backbone seeded conf s later w' = (Ok tt, w1) ->
  design gtb backbone seeded conf s i w' = (Ok None, reseeded seeded conf i w')
  /\ design gtb backbone seeded conf s i w1 = (Ok None, reseeded seeded conf i w1).
Proof.
  intros Hc Hrun Hlater.
  assert (Hex := design_completed_exists conf s i w acc w' Hrun).
  split; [by apply design_skipped|].
  apply design_skipped; [done|].
  clear Hrun. revert w' Hex Hlater.
  induction later as [|j later IH]; intros w' Hex Hlater.
  - unfold batch in Hlater. simpl in Hlater. by injection Hlater as <-.
  - rewrite batch_cons in Hlater.
    destruct (design gtb backbone seeded conf s j w') as [[o|e] wj] eqn:Hj;
      [|done].
    eapply IH; [|exact Hlater]. by eapply design_exists_mono.
Qed.

(** X7.  A batch that ends normally leaves, for every index it ran
    over, something under the name of the structure artifact of that
    index: each design either found it (and was skipped) or wrote it,
    and no later design removes it. *)
Theorem batch_leaves_every_structure conf (s : Sampler) indices
    (w w' : world) :
  batch gtb backbone seeded conf s indices w = (Ok tt, w') ->
  forall i, i ∈ indices ->
    exists_in (fs w') (out_prefix_of s i +:+ ".pdb") = true.
Proof.
  revert w. induction indices as [|j indices IH]; intros w Hrun i Hi.
  { by apply elem_of_nil in Hi. }
  rewrite batch_cons in Hrun.
  destruct (design gtb backbone seeded conf s j w) as [[o|e] wj] eqn:Hj;
    [|done].
  apply elem_of_cons in Hi as [-> | Hi]; [|by eapply IH].
  assert (Hex : exists_in (fs wj) (out_prefix_of s j +:+ ".pdb") = true).
  { destruct o as [acc|]; [by eapply design_completed_exists|].
    rewrite design_eq in Hj.
    destruct (cautious (inf_conf s) && exists_in (fs w) _) eqn:Hskip.
    + injection Hj as <-. apply andb_true_iff in Hskip as [_ Hex].
      by rewrite (proj1 (reseeded_frame seeded conf j w)).
    + by destruct (make_design _ _ _ _ _) as [[|] ?]. }
  clear Hj IH. revert wj Hex Hrun.
  induction indices as [|k indices IH]; intros wj Hex Hrun.
  - unfold batch in Hrun. simpl in Hrun. by injection Hrun as <-.
  - rewrite batch_cons in Hrun.
    destruct (design gtb backbone seeded conf s k wj) as [[o'|e] wk] eqn:Hk;
      [|done].
    eapply IH; [|exact Hrun]. by eapply design_exists_mono.
Qed.

(** *** How the steps are fed *)

(** X8.  In the timestep loop every call to [sample_step] is given the
    structure and the sequence the call before it returned, the first
    call those the loop starts from, and every call the configured
    [final_step]; no call follows one that raised. *)
Theorem steps_are_chained (s : Sampler) ts x q acc (w : world) o w' :
  diffusion_loop s ts x q acc w = (o, w') ->
  exists evs,
    trace w' = trace w ++ evs
    /\ chained x q (final_step (inf_conf s)) evs.
Proof.
  revert x q acc w. induction ts as [|t ts IH]; intros x q acc w; simpl.
  - intros [= <- <-]. exists []. by rewrite app_nil_r.
  - unfold bind at 1, call_sample_step.
    destruct (sample_step s t x q (final_step (inf_conf s))
                (sampler_state w) (rng w)) as [[res h] g].
    destruct res as [[[[px0 x'] q'] p]|e]; simpl.
    + unfold bind at 1. destruct p as [|p0 ps]; simpl.
      * intros [= <- <-]. eexists [_]. by repeat split.
      * intros Hloop. apply IH in Hloop as (evs & Htr & Hch).
        simpl in Htr. eexists (_ :: evs).
        rewrite Htr, <- app_assoc. by repeat split.
    + intros [= <- <-]. eexists [_]. by repeat split.
Qed.

(** *** Configurations under which nothing is written *)

Lemma diffusion_loop_nil (s : Sampler) x q acc (w : world) :
  diffusion_loop s [] x q acc w = (Ok acc, w).
Proof. done. Qed.


Lemma dirname_no_slash p : Py.no_slash p -> Py.dirname p = "".
Proof.
  intros Hp. unfold Py.dirname, Py.split_path.
  rewrite (PyFacts.span_all _ _ (PyFacts.no_slash_span p Hp)). done.
Qed.

Lemma out_prefix_no_slash (s : Sampler) i :
  Py.no_slash (output_prefix (inf_conf s)) -> Py.no_slash (out_prefix_of s i).
Proof.
  intros Hp. unfold out_prefix_of, Py.no_slash.
  rewrite PyFacts.list_ascii_app. apply Forall_app. split; [done|].
  apply index_part_no_slash.
Qed.

Lemma save_outputs_no_directory (s : Sampler) p q acc (w : world) o w' :
  Py.dirname p = "" ->
  save_outputs gtb backbone s p q acc w = (o, w') ->
  w' = w
  /\ (o = Raise RuntimeError \/ o = Raise FileNotFoundError)
  /\ (denoised_xyz_stack acc <> [] -> px0_xyz_stack acc <> [] ->
      plddt_stack acc <> [] -> o = Raise FileNotFoundError).
Proof.
  intros Hdir. unfold save_outputs.
  destruct (denoised_xyz_stack acc) as [|d ds]; simpl.
  { intros [= <- <-]. split; [done|]. split; [by left|]. done. }
  unfold bind at 1. simpl.
  destruct (px0_xyz_stack acc) as [|p0 ps]; simpl.
  { intros [= <- <-]. split; [done|]. split; [by left|]. done. }
  unfold bind at 1. simpl.
  destruct (plddt_stack acc) as [|l ls]; simpl.
  { intros [= <- <-]. split; [done|]. split; [by left|]. done. }
  unfold bind at 1. simpl.
  unfold bind at 1, makedirs. rewrite Hdir. simpl.
  intros [= <- <-]. split; [done|]. split; [by right|]. done.
Qed.


Lemma resolve_startnum_returns (s : Sampler) (w : world) :
  exists start, resolve_startnum glob s w = (Ok start, w).
Proof.
  unfold resolve_startnum.
  destruct (design_startnum (inf_conf s) =? -1); [|by eexists].
  unfold bind at 1, glob_glob. rewrite scan_indices_suffixes. by eexists.
Qed.


(** *** The resume scan and the names the batch writes *)

Lemma resolve_startnum_scan (s : Sampler) (w : world) :
  design_startnum (inf_conf s) = -1 ->
  resolve_startnum glob s w
  = (Ok (fold_right Z.max (-1)
           (suffixes (glob (fs w) (output_prefix (inf_conf s) +:+ "*.pdb")))
         + 1), w).
Proof.
  intros Hstart. unfold resolve_startnum. rewrite Hstart. simpl.
  unfold bind at 1, glob_glob. rewrite scan_indices_suffixes. simpl.
  by rewrite fold_left_max.
Qed.

Lemma suffixes_nonneg existing n : n ∈ suffixes existing -> 0 <= n.
Proof.
  unfold suffixes. rewrite list_elem_of_omap.
  intros (e & _ & Hn). apply fmap_Some in Hn as (d & _ & ->).
  apply PyFacts.int_nonneg.
Qed.

(** X12.  The start index the resume scan returns is never negative. *)
Theorem resume_start_nonneg (s : Sampler) (w : world) :
  design_startnum (inf_conf s) = -1 ->
  exists start, resolve_startnum glob s w = (Ok start, w) /\ 0 <= start.
Proof.
  intros Hstart. rewrite resolve_startnum_scan by done.
  eexists. split; [done|].
  destruct (fold_max_bounds (-1) (suffixes (glob (fs w)
              (output_prefix (inf_conf s) +:+ "*.pdb")))) as (Hlo & _). lia.
Qed.

Lemma fold_max_perm (l1 l2 : list Z) :
  l1 ≡ₚ l2 -> fold_right Z.max (-1) l1 = fold_right Z.max (-1) l2.
Proof.
  induction 1 as [|x l1 l2 _ IH|x y l|l1 l2 l3 _ IH1 _ IH2]; simpl;
    [done | by rewrite IH | lia | congruence].
Qed.

(** X13.  The start index does not depend on the order in which [glob]
    lists the artifacts. *)
Theorem resume_ignores_listing_order
    (glob1 glob2 : filesystem -> string -> list string)
    (s : Sampler) (w : world) :
  glob1 (fs w) (output_prefix (inf_conf s) +:+ "*.pdb")
    ≡ₚ glob2 (fs w) (output_prefix (inf_conf s) +:+ "*.pdb") ->
  resolve_startnum glob1 s w = resolve_startnum glob2 s w.
Proof.
  clear glob. intros Hperm. unfold resolve_startnum.
  destruct (design_startnum (inf_conf s) =? -1); [|done].
  unfold bind at 1 3, glob_glob. rewrite !scan_indices_suffixes. simpl.
  rewrite !fold_left_max.
  assert (Hs : suffixes (glob1 (fs w) (output_prefix (inf_conf s) +:+ "*.pdb"))
               ≡ₚ suffixes (glob2 (fs w)
                              (output_prefix (inf_conf s) +:+ "*.pdb"))).
  { unfold suffixes. by apply omap_Permutation. }
  by rewrite (fold_max_perm _ _ Hs).
Qed.

(** X14.  The scan reads back the index of a structure artifact the
    batch wrote: for an index that is not negative (and an output prefix
    without a newline) the pattern captures the formatted index and
    [int] gives the index; the name of a negative index does not match
    the pattern at all. *)
Theorem scan_reads_back_index (s : Sampler) i :
  (0 <= i ->
   Forall (fun c => c <> Py.newline)
     (String.list_ascii_of_string (output_prefix (inf_conf s))) ->
   suffixes [out_prefix_of s i +:+ ".pdb"] = [i])
  /\ (i < 0 -> suffixes [out_prefix_of s i +:+ ".pdb"] = []).
Proof.
  unfold suffixes, out_prefix_of. rewrite !string_app_assoc. simpl. split.
  - intros Hi Hp. rewrite PyFacts.match_formatted_nonneg by done. simpl.
    by rewrite PyFacts.int_format_05d.
  - intros Hi. by rewrite PyFacts.match_formatted_neg.
Qed.

(** X15.  Resuming never reuses the index of a structure artifact that
    [glob] lists: when the artifact of an index that is not negative
    is among the listed names, the start index lies above it. *)
Theorem resume_starts_above_listed (s : Sampler) (w : world) i :
  design_startnum (inf_conf s) = -1 ->
  0 <= i ->
  Forall (fun c => c <> Py.newline)
    (String.list_ascii_of_string (output_prefix (inf_conf s))) ->
  out_prefix_of s i +:+ ".pdb"
    ∈ glob (fs w) (output_prefix (inf_conf s) +:+ "*.pdb") ->
  exists start, resolve_startnum glob s w = (Ok start, w) /\ i < start.
Proof.
  intros Hstart Hi Hp Hin. rewrite resolve_startnum_scan by done.
  eexists. split; [done|].
  destruct (fold_max_bounds (-1) (suffixes (glob (fs w)
              (output_prefix (inf_conf s) +:+ "*.pdb")))) as (_ & Hub & _).
  assert (Hmem : i ∈ suffixes (glob (fs w)
                    (output_prefix (inf_conf s) +:+ "*.pdb"))).
  { unfold suffixes. apply list_elem_of_omap. eexists. split; [exact Hin|].
    unfold out_prefix_of. rewrite !string_app_assoc.
    rewrite PyFacts.match_formatted_nonneg by done. simpl.
    by rewrite PyFacts.int_format_05d. }
  specialize (Hub _ Hmem). lia.
Qed.

(** *** The whole run *)

Lemma accounted_batch conf (s : Sampler) indices :
  accounted (fun path => exists i, i ∈ indices /\ path ∈ design_paths s i)
    (batch gtb backbone seeded conf s indices).
Proof.
  unfold batch. induction indices as [|i l IH]; simpl; [apply accounted_ret|].
  apply accounted_bind.
  - apply accounted_bind; [|intros ?; apply accounted_ret].
    eapply accounted_mono; [|apply accounted_design].
    intros path Hp. exists i. split; [by left|done].
  - intros _. eapply accounted_mono; [|exact IH].
    intros path (j & Hj & Hp). exists j. split; [by right|done].
Qed.

Lemma resolve_startnum_fs (s : Sampler) (w1 w2 : world) start :
  fs w1 = fs w2 ->
  resolve_startnum glob s w1 = (Ok start, w1) ->
  resolve_startnum glob s w2 = (Ok start, w2).
Proof.
  intros Hfs. unfold resolve_startnum.
  destruct (design_startnum (inf_conf s) =? -1); [|by intros [= <-]].
  unfold bind at 1 3, glob_glob. rewrite !scan_indices_suffixes, Hfs.
  simpl. by intros [= <-].
Qed.


End Facts.
End DesignFacts.

(** ** Device and configuration path *)

Module StartupFacts.
Import Startup.

Section Device.
#[local] Set Default Proof Using "Type".
Context (int_of_string : string -> option Z).

Lemma split_fields_no_underscore cur s :
  "_"%char ∉ s -> split_fields cur s = [rev cur ++ s].
Proof.
  revert cur. induction s as [|c s IH]; intros cur Hno; simpl.
  - by rewrite app_nil_r.
  - apply not_elem_of_cons in Hno as [Hc Hs].
    case_decide; [congruence|]. rewrite IH by done. simpl.
    by rewrite <- app_assoc.
Qed.

Lemma split_fields_cons cur s :
  exists field rest, split_fields cur s = field :: rest.
Proof.
  revert cur. induction s as [|c s IH]; intros cur; simpl; [by eexists _, _|].
  case_decide; [by eexists _, _ | apply IH].
Qed.

Lemma split_fields_underscore cur s :
  "_"%char ∈ s -> is_Some (split_fields cur s !! 1%nat).
Proof.
  revert cur. induction s as [|c s IH]; intros cur Hin; simpl.
  - by apply elem_of_nil in Hin.
  - case_decide.
    + destruct (split_fields_cons [] s) as (field & rest & ->). by eexists.
    + apply elem_of_cons in Hin as [Hc | Hs]; [congruence|]. by apply IH.
Qed.

(** X17.  [int(arch.split("_")[1])] raises [IndexError] exactly when
    the architecture string holds no underscore. *)
Theorem arch_without_underscore arch :
  arch_number int_of_string arch = inl ArchIndexError
  <-> "_"%char ∉ String.list_ascii_of_string arch.
Proof.
  unfold arch_number, split_underscore.
  change (map ?f ?l) with (f <$> l). rewrite list_lookup_fmap. split.
  - intros Hnum Hin.
    destruct (split_fields_underscore [] _ Hin) as [field Hfield].
    rewrite Hfield in Hnum. simpl in Hnum.
    by destruct (int_of_string _).
  - intros Hno. by rewrite split_fields_no_underscore.
Qed.

Lemma arch_numbers_inr archs ns :
  arch_numbers int_of_string archs = inr ns <->
  Forall2 (fun arch n => arch_number int_of_string arch = inr n) archs ns.
Proof.
  revert ns. induction archs as [|arch archs IH]; intros ns; simpl.
  - split; [by intros [= <-] | by intros ->%Forall2_nil_inv_l].
  - destruct (arch_number int_of_string arch) as [e|n] eqn:Harch.
    + split; [done|]. intros (n & ns' & Hn & _ & _)%Forall2_cons_inv_l.
      congruence.
    + destruct (arch_numbers int_of_string archs) as [e|ns'] eqn:Hrest.
      * split; [done|]. intros (n' & ns' & _ & Hns & _)%Forall2_cons_inv_l.
        by apply IH in Hns.
      * split.
        -- intros [= <-]. constructor; [done|]. by apply IH.
        -- intros (n' & ns'' & Hn & Hns & ->)%Forall2_cons_inv_l.
           apply IH in Hns. congruence.
Qed.

Lemma fold_min_le x l :
  fold_left Z.min l x <= x
  /\ (forall n, n ∈ l -> fold_left Z.min l x <= n)
  /\ (fold_left Z.min l x = x \/ fold_left Z.min l x ∈ l).
Proof.
  revert x. induction l as [|a l IH]; intros x; simpl.
  - split; [lia|]. split; [|by left]. intros n Hn. by apply elem_of_nil in Hn.
  - destruct (IH (Z.min x a)) as (H1 & H2 & H3). split; [lia|]. split.
    + intros n [-> | Hn]%elem_of_cons; [lia | by apply H2].
    + destruct H3 as [H3 | H3]; [|right; by right].
      rewrite H3. destruct (Z.min_spec x a) as [[_ ->] | [_ ->]];
        [by left | right; by left].
Qed.

Lemma min_default_spec ns :
  (ns = [] -> min_default ns = 35)
  /\ (forall n, n ∈ ns -> min_default ns <= n)
  /\ (ns <> [] -> min_default ns ∈ ns).
Proof.
  destruct ns as [|n ns]; simpl.
  - split; [done|]. split; [|done]. intros n Hn. by apply elem_of_nil in Hn.
  - destruct (fold_min_le n ns) as (H1 & H2 & H3). split; [done|]. split.
    + intros m [-> | Hm]%elem_of_cons; [done | by apply H2].
    + intros _. destruct H3 as [-> | H3]; [by left | by right].
Qed.

Lemma first_capable_spec cuda min_arch devs name :
  match first_capable cuda min_arch devs name with
  | Index d =>
      (exists pre post,
          devs = pre ++ d :: post
          /\ min_arch <= capability cuda d
          /\ Forall (fun d' => capability cuda d' < min_arch) pre)
      \/ (name = Index d
          /\ Forall (fun d' => capability cuda d' < min_arch) devs)
  | Name n =>
      name = Name n /\ Forall (fun d' => capability cuda d' < min_arch) devs
  end.
Proof.
  induction devs as [|dev devs IH]; simpl.
  - destruct name; [done|]. by right.
  - unfold capability in *.
    destruct (get_device_capability cuda dev) as [a b] eqn:Hcap.
    destruct (Z.leb_spec min_arch (10 * a + b)) as [Hle|Hlt].
    + left. exists [], devs. rewrite Hcap. by repeat split.
    + destruct (first_capable cuda min_arch devs name) as [n|d].
      * destruct IH as [-> IH]. split; [done|]. constructor; [|done].
        by rewrite Hcap.
      * destruct IH as [(pre & post & -> & Hd & Hpre) | [-> IH]].
        -- left. exists (dev :: pre), post. split; [done|]. split; [done|].
           constructor; [by rewrite Hcap | done].
        -- right. split; [done|]. constructor; [by rewrite Hcap | done].
Qed.

(** X18.  When [get_device_name] returns a device index, the name was
    left to [auto], CUDA is available, every architecture string of the
    build has an integer second field, and the index is the first
    device, counting from 0, whose capability [10 * major + minor]
    reaches the least of these integers (35 when the build lists no
    architecture). *)
Theorem device_index_is_first_capable cuda conf d :
  get_device_name int_of_string cuda conf = inr (Index d) ->
  (conf = None \/ conf = Some "auto")
  /\ is_available cuda = true
  /\ exists ns,
       Forall2 (fun arch n => arch_number int_of_string arch = inr n)
         (get_arch_list cuda) ns
       /\ (ns = [] -> min_default ns = 35)
       /\ (forall n, n ∈ ns -> min_default ns <= n)
       /\ (ns <> [] -> min_default ns ∈ ns)
       /\ 0 <= d < device_count cuda
       /\ min_default ns <= capability cuda d
       /\ forall d', 0 <= d' < d -> capability cuda d' < min_default ns.
Proof.
  unfold get_device_name. intros Hget.
  assert (Hconf : conf = None \/ conf = Some "auto").
  { destruct conf as [n|]; [|by left]. case_decide; [by subst; right|done]. }
  split; [done|].
  assert (Hauto : match conf with Some n => n | None => "auto" end = "auto").
  { by destruct Hconf as [-> | ->]. }
  rewrite Hauto in Hget. simpl in Hget.
  destruct (is_available cuda); [|done]. split; [done|].
  destruct (arch_numbers int_of_string (get_arch_list cuda)) as [e|ns] eqn:Hns;
    [done|].
  exists ns. split; [by apply arch_numbers_inr|].
  destruct (min_default_spec ns) as (Hm1 & Hm2 & Hm3).
  repeat (split; [done|]).
  injection Hget as Hget.
  pose proof (first_capable_spec cuda (min_default ns)
                (Py.range 0 (device_count cuda) 1) (Name "cpu")) as Hspec.
  rewrite Hget in Hspec.
  destruct Hspec as [(pre & post & Hrange & Hd & Hpre) | [? _]]; [|done].
  assert (Hin : d ∈ Py.range 0 (0 + device_count cuda) 1).
  { rewrite Z.add_0_l, Hrange. apply elem_of_app. right. by left. }
  apply PyFacts.range_up_elem in Hin. split; [lia|]. split; [done|].
  intros d' Hd'.
  assert (Hin' : d' ∈ Py.range 0 (0 + device_count cuda) 1).
  { apply PyFacts.range_up_elem. lia. }
  rewrite Z.add_0_l, Hrange in Hin'.
  apply elem_of_app in Hin' as [Hin' | Hin'].
  { rewrite Forall_forall in Hpre. by apply Hpre. }
  exfalso.
  (* [d'] would come after [d] in an increasing range *)
  assert (Hk : exists k : nat, Py.range 0 (device_count cuda) 1 !! k = Some d
                            /\ length pre = k).
  { exists (length pre). split; [|done].
    rewrite Hrange. by rewrite list_lookup_middle. }
  destruct Hk as (k & Hk & Hlen).
  apply list_elem_of_lookup in Hin' as [k' Hk'].
  assert (Hk2 : Py.range 0 (device_count cuda) 1 !! (k + k')%nat = Some d').
  { rewrite Hrange, <- Hlen. by rewrite lookup_app_r, Nat.add_comm,
      Nat.add_sub by lia. }
  unfold Py.range in Hk, Hk2.
  assert (Hlt1 := lookup_lt_Some _ _ _ Hk).
  assert (Hlt2 := lookup_lt_Some _ _ _ Hk2).
  rewrite PyFacts.range_from_length in Hlt1, Hlt2.
  rewrite PyFacts.range_from_lookup in Hk, Hk2 by done.
  injection Hk as Hk. injection Hk2 as Hk2. lia.
Qed.

Lemma first_capable_none cuda min_arch devs name :
  Forall (fun d' => capability cuda d' < min_arch) devs ->
  first_capable cuda min_arch devs name = name.
Proof.
  induction 1 as [|dev devs Hdev _ IH]; simpl; [done|].
  unfold capability in Hdev.
  destruct (get_device_capability cuda dev) as [a b]. simpl in Hdev.
  destruct (Z.leb_spec min_arch (10 * a + b)); [lia | done].
Qed.

Lemma arch_numbers_inl archs e :
  arch_numbers int_of_string archs = inl e <->
  exists pre arch post,
    archs = pre ++ arch :: post
    /\ Forall (fun a => exists n, arch_number int_of_string a = inr n) pre
    /\ arch_number int_of_string arch = inl e.
Proof.
  induction archs as [|arch archs IH]; simpl.
  - split; [done|]. intros (pre & a & post & Heq & _). by destruct pre.
  - destruct (arch_number int_of_string arch) as [e'|n] eqn:Harch.
    + split.
      * intros [= ->]. by exists [], arch, archs.
      * intros (pre & a & post & Heq & Hpre & Ha).
        destruct pre as [|a' pre]; simplify_eq/=; [congruence|].
        apply Forall_cons in Hpre as [[n Hn] _]. congruence.
    + destruct (arch_numbers int_of_string archs) as [e'|ns] eqn:Hrest.
      * split.
        -- intros [= ->]. destruct IH as [IH _].
           destruct (IH eq_refl) as (pre & a & post & -> & Hpre & Ha).
           exists (arch :: pre), a, post. split; [done|].
           split; [|done]. constructor; [by exists n | done].
        -- intros (pre & a & post & Heq & Hpre & Ha).
           destruct pre as [|a' pre]; simplify_eq/=; [congruence|].
           apply Forall_cons in Hpre as [_ Hpre]. f_equal.
           destruct IH as [_ IH].
           assert (inl e' = inl (B := list Z) e) as [= ->]; [|done].
           apply IH. by exists pre, a, post.
      * split; [done|].
        intros (pre & a & post & Heq & Hpre & Ha).
        destruct pre as [|a' pre]; simplify_eq/=; [congruence|].
        apply Forall_cons in Hpre as [_ Hpre].
        destruct IH as [_ IH].
        assert (inr ns = inl (B := list Z) e) as [=]. apply IH.
        by exists pre, a, post.
Qed.

Lemma auto_name conf :
  conf = None \/ conf = Some "auto" <->
  match conf with Some n => n | None => "auto" end = "auto".
Proof.
  destruct conf as [n|]; split; try done; try by left.
  - by intros [? | [= ->]].
  - intros ->. by right.
Qed.

(** X19.  [get_device_name] raises exactly when the name is left to
    [auto], CUDA is available and some architecture string of the build
    has no integer second field; the exception is that of the first
    such string, and the devices are not looked at. *)
Theorem device_name_raises_on_first_bad_arch cuda conf e :
  get_device_name int_of_string cuda conf = inl e <->
  (conf = None \/ conf = Some "auto")
  /\ is_available cuda = true
  /\ exists pre arch post,
       get_arch_list cuda = pre ++ arch :: post
       /\ Forall (fun a => exists n, arch_number int_of_string a = inr n) pre
       /\ arch_number int_of_string arch = inl e.
Proof.
  rewrite auto_name, <- arch_numbers_inl. unfold get_device_name.
  case_decide as Hauto; [|by intuition].
  destruct (is_available cuda); [|by intuition].
  destruct (arch_numbers int_of_string (get_arch_list cuda)) as [e'|ns];
    [|by intuition].
  split; [by intros [= ->] | by intros (_ & _ & [= ->])].
Qed.

(** X20.  [get_device_name] returns a name, not an index, in two cases
    only: the configured name, when it is not [auto]; and [cpu], when
    the name is left to [auto] and either CUDA is unavailable or no
    device reaches the least architecture number of the build. *)
Theorem device_name_configured_or_cpu cuda conf name :
  get_device_name int_of_string cuda conf = inr (Name name) <->
  (conf = Some name /\ name <> "auto")
  \/ (name = "cpu"
      /\ (conf = None \/ conf = Some "auto")
      /\ (is_available cuda = false
          \/ (is_available cuda = true
              /\ exists ns,
                   arch_numbers int_of_string (get_arch_list cuda) = inr ns
                   /\ forall d, 0 <= d < device_count cuda ->
                                capability cuda d < min_default ns))).
Proof.
  rewrite auto_name. unfold get_device_name.
  case_decide as Hauto.
  - assert (Hconf : ~ (conf = Some name /\ name <> "auto")).
    { intros [-> Hne]. done. }
    destruct (is_available cuda).
    + destruct (arch_numbers int_of_string (get_arch_list cuda)) as [e'|ns].
      { split; [done|]. intros [? | (_ & _ & [? | (_ & ns & ? & _)])]; done. }
      pose proof (first_capable_spec cuda (min_default ns)
                    (Py.range 0 (device_count cuda) 1) (Name "cpu")) as Hspec.
      split.
      * intros [= Hfirst]. rewrite Hfirst in Hspec.
        destruct Hspec as [[= <-] Hall]. right. split; [done|].
        split; [done|]. right. split; [done|]. exists ns. split; [done|].
        intros d Hd. rewrite Forall_forall in Hall. apply Hall.
        rewrite <- (Z.add_0_l (device_count cuda)).
        apply PyFacts.range_up_elem. lia.
      * intros [? | (-> & _ & [? | (_ & ns' & [= <-] & Hall)])]; [done..|].
        rewrite first_capable_none; [done|].
        rewrite Forall_forall. intros d Hd. apply Hall.
        rewrite <- (Z.add_0_l (device_count cuda)) in Hd.
        apply PyFacts.range_up_elem in Hd. lia.
    + split.
      * intros [= <-]. right. split; [done|]. split; [done|]. by left.
      * intros [? | (-> & _ & _)]; done.
  - destruct conf as [n|]; [|done]. simpl in Hauto. split.
    + intros [= ->]. by left.
    + intros [[[= ->] _] | (_ & ? & _)]; done.
Qed.
End Device.

Section ConfigPath.
#[local] Set Default Proof Using "Type".
Context {path : Type}.
Context (Path : string -> path) (join : path -> string -> path)
        (path_exists : path -> bool).
Context (here script_dir home : path) (xdg_config_home : option string).

(** X21.  [get_config_path] returns the first of its three candidates
    that exists, in the order working directory, script directory, XDG
    configuration directory; when none exists it returns the XDG
    candidate all the same.  So the path returned exists whenever one
    of the candidates does. *)
Theorem config_path_first_existing :
  let '(p1, p2, p3) := candidates Path join here script_dir home
                         xdg_config_home in
  let p := get_config_path Path join path_exists here script_dir home
             xdg_config_home in
  (path_exists p1 = true -> p = p1)
  /\ (path_exists p1 = false -> path_exists p2 = true -> p = p2)
  /\ (path_exists p1 = false -> path_exists p2 = false -> p = p3)
  /\ (path_exists p1 = true \/ path_exists p2 = true \/ path_exists p3 = true
      -> path_exists p = true).
Proof.
  unfold get_config_path.
  destruct (candidates _ _ _ _ _ _) as [[p1 p2] p3]. simpl.
  destruct (path_exists p1) eqn:H1, (path_exists p2) eqn:H2,
    (path_exists p3) eqn:H3; repeat split; try done; intuition congruence.
Qed.
End ConfigPath.

End StartupFacts.

(** ** The built-ins on concrete inputs *)

Example range_down_3_1 : Py.range 3 (1 - 1) (-1) = [3; 2; 1].
Proof. reflexivity. Qed.

Example range_up_4_6 : Py.range 4 (4 + 3) 1 = [4; 5; 6].
Proof. reflexivity. Qed.

Example range_down_empty_1_5 : Py.range 1 (5 - 1) (-1) = [].
Proof. reflexivity. Qed.

Example fmt_7 : Py.format_05d 7 = "00007".
Proof. reflexivity. Qed.

Example fmt_neg : Py.format_05d (-5) = "-0005".
Proof. reflexivity. Qed.

Example fmt_wide : Py.format_05d 123456 = "123456".
Proof. reflexivity. Qed.

Example dirname_ex : Py.dirname "out/run/design_00001" = "out/run".
Proof. reflexivity. Qed.

Example dirname_root : Py.dirname "//x" = "//".
Proof. reflexivity. Qed.

Example dirname_none : Py.dirname "design_00001" = "".
Proof. reflexivity. Qed.

Example basename_ex : Py.basename "out/run/design_00001" = "design_00001".
Proof. reflexivity. Qed.

Example match_ex : Py.re_match_index "out/design_00007.pdb" = Some "00007".
Proof. reflexivity. Qed.

Example match_two : Py.re_match_index "out/a_12_34.pdb" = Some "34".
Proof. reflexivity. Qed.

Example match_none : Py.re_match_index "out/design.pdb" = None.
Proof. reflexivity. Qed.

Example match_nodigit : Py.re_match_index "out/design_.pdb" = None.
Proof. reflexivity. Qed.

Example scan_example :
  Inference.suffixes
    ["out/d_00000.pdb"; "out/notes.pdb"; "out/d_00003.pdb";
     "out/d_00007.pdb"; "out/d_x1.pdb"; "out/d_12.pdb.bak"]
  = [0; 3; 7]
  /\ Py.max (Inference.scan_indices
               ["out/d_00000.pdb"; "out/notes.pdb"; "out/d_00003.pdb";
                "out/d_00007.pdb"; "out/d_x1.pdb"; "out/d_12.pdb.bak"] [-1])
     = Some 7.
Proof. split; vm_compute; reflexivity. Qed.

Example scan_nothing : Py.max (Inference.scan_indices [] [-1]) = Some (-1).
Proof. vm_compute. reflexivity. Qed.

(** ** The script on the small sampler *)

Module Runs.
Import Inference InferenceFacts Demo.

Example timesteps_3_to_1 : timesteps s_ok = [3; 2; 1].
Proof. reflexivity. Qed.

Example design_steps_in_order :
  omap step_time (trace w_ok) = [3; 2; 1].
Proof. vm_compute. reflexivity. Qed.

Example design_writes :
  (files (fs w_ok) !! "out/design_00000.pdb",
   files (fs w_ok) !! "out/design_00000.trb")
  = (Some (PdbFile [[6; 7; 8; 9]; [11; 12; 13; 14]; [6; 6; 6; 6]]
             [7; 3; 7] (Torch.Vector [0; 1; 0])),
     Some (TrbFile [[1; 3; 1]; [10; 2; 1]; [72; 1; 1]])).
Proof. vm_compute. reflexivity. Qed.

Example one_residue_raises :
  Torch.masked_assign (Torch.ones_like (Torch.squeeze [7])) [true] 0 = None.
Proof. reflexivity. Qed.

Example no_directory_raises :
  (run_design nondet
     (sampler {| design_startnum := 0; output_prefix := "design";
                 num_designs := 1; cautious := false; final_step := 1;
                 write_trajectory := false |} 3 never) 0 world0).1
  = Raise FileNotFoundError.
Proof. vm_compute. reflexivity. Qed.

Lemma timestep_loop_counts_down_witness :
  final_step (inf_conf s_ok) <= t_step_input s_ok
  /\ Z.of_nat (length (timesteps s_ok)) = 3
  /\ timesteps s_ok !! 2%nat = Some 1.
Proof.
  assert (Hle : final_step (inf_conf s_ok) <= t_step_input s_ok)
    by (vm_compute; discriminate).
  destruct (timestep_loop_counts_down s_ok Hle) as (Hlen & Hk & _).
  split; [exact Hle|]. split; [exact Hlen|].
  apply (Hk 2%nat). vm_compute. lia.
Defined.

Lemma final_sequence_from_initial_witness :
  run_design nondet s_ok 0 world0 = (Ok (Some acc_ok), w_ok)
  /\ exists final_seq xyz bf,
       WriteFile "out/design_00000.pdb" (PdbFile xyz final_seq bf)
         ∈ trace w_ok
       /\ final_seq !! 0%nat = Some 7 /\ final_seq !! 1%nat = Some 3.
Proof.
  assert (Hrun : run_design nondet s_ok 0 world0 = (Ok (Some acc_ok), w_ok))
    by (vm_compute; reflexivity).
  split; [exact Hrun|].
  destruct (final_sequence_from_initial Z.gtb backbone seeded nondet s_ok 0
              world0 acc_ok w_ok Hrun)
    as (evs & x_init & seq_init & final_seq & Htr & Hhead & (xyz & bf & Hin)
        & _ & _ & Hrows).
  change (trace w_ok = evs) in Htr. rewrite <- Htr in Hhead, Hin.
  vm_compute in Hhead. injection Hhead as _ Hq.
  exists final_seq, xyz, bf. split; [exact Hin|].
  destruct (Hrows 0%nat (one_hot 21)) as (c0 & Hc0 & H21 & _);
    [by rewrite <- Hq|].
  destruct (Hrows 1%nat (one_hot 3)) as (c1 & Hc1 & _ & H3);
    [by rewrite <- Hq|].
  vm_compute in Hc0, Hc1. injection Hc0 as <-. injection Hc1 as <-.
  split; [by apply H21 | by apply H3].
Defined.

Lemma bfacts_flag_diffused_witness :
  run_design nondet s_ok 0 world0 = (Ok (Some acc_ok), w_ok)
  /\ exists bfacts xyz sq,
       WriteFile "out/design_00000.pdb" (PdbFile xyz sq (Torch.Vector bfacts))
         ∈ trace w_ok
       /\ bfacts !! 0%nat = Some 0 /\ bfacts !! 1%nat = Some 1.
Proof.
  assert (Hrun : run_design nondet s_ok 0 world0 = (Ok (Some acc_ok), w_ok))
    by (vm_compute; reflexivity).
  split; [exact Hrun|].
  destruct (bfacts_flag_diffused Z.gtb backbone seeded nondet s_ok 0
              world0 acc_ok w_ok Hrun)
    as (evs & x_init & seq_init & bfacts & Htr & Hhead & (xyz & sq & Hin)
        & _ & _ & Hrows).
  change (trace w_ok = evs) in Htr. rewrite <- Htr in Hhead, Hin.
  vm_compute in Hhead. injection Hhead as _ Hq.
  exists bfacts, xyz, sq. split; [exact Hin|].
  destruct (Hrows 0%nat (one_hot 21)) as (c0 & Hc0 & H21 & _);
    [by rewrite <- Hq|].
  destruct (Hrows 1%nat (one_hot 3)) as (c1 & Hc1 & _ & H3);
    [by rewrite <- Hq|].
  vm_compute in Hc0, Hc1. injection Hc0 as <-. injection Hc1 as <-.
  split; [by apply H21 | by apply H3].
Defined.

Lemma trajectories_are_reversed_witness :
  run_design nondet s_ok 0 world0 = (Ok (Some acc_ok), w_ok)
  /\ write_trajectory (inf_conf s_ok) = true
  /\ exists path xt_out bf sq,
       WriteFile path (TrajFile xt_out bf sq) ∈ trace w_ok
       /\ xt_out !! 0%nat = denoised_xyz_stack acc_ok !! 2%nat
       /\ xt_out !! 2%nat = denoised_xyz_stack acc_ok !! 0%nat.
Proof.
  assert (Hrun : run_design nondet s_ok 0 world0 = (Ok (Some acc_ok), w_ok))
    by (vm_compute; reflexivity).
  assert (Htraj : write_trajectory (inf_conf s_ok) = true) by reflexivity.
  split; [exact Hrun|]. split; [exact Htraj|].
  destruct (trajectories_are_reversed Z.gtb backbone seeded nondet s_ok 0
              world0 acc_ok w_ok Hrun Htraj)
    as (evs & tp & xt & px & bf & sq & Htr & _ & _ & Hin & _ & _ & _ & _ & _
        & _ & Hk).
  change (trace w_ok = evs) in Htr. rewrite <- Htr in Hin.
  exists (tp +:+ "_Xt-1_traj.pdb"), xt, bf, sq. split; [exact Hin|].
  split.
  - apply (Hk 0%nat). vm_compute. lia.
  - apply (Hk 2%nat). vm_compute. lia.
Defined.

Lemma plddt_in_generation_order_witness :
  run_design nondet s_ok 0 world0 = (Ok (Some acc_ok), w_ok)
  /\ exists plddt,
       WriteFile "out/design_00000.trb" (TrbFile plddt) ∈ trace w_ok
       /\ plddt = plddt_stack acc_ok
       /\ length plddt = 3%nat.
Proof.
  assert (Hrun : run_design nondet s_ok 0 world0 = (Ok (Some acc_ok), w_ok))
    by (vm_compute; reflexivity).
  split; [exact Hrun|].
  destruct (plddt_in_generation_order Z.gtb backbone seeded nondet s_ok 0
              world0 acc_ok w_ok Hrun)
    as (evs & plddt & Htr & Hin & _ & Hacc & Hlen & _).
  change (trace w_ok = evs) in Htr. rewrite <- Htr in Hin.
  exists plddt. split; [exact Hin|]. split; [exact Hacc|]. exact Hlen.
Defined.



Lemma sampler_failure_aborts_batch_witness :
  run_batch nondet s_fail [0] world0 = (Ok tt, w_one)
  /\ failed_calls !! 2%nat = Some failing_call
  /\ step_time failing_call = Some 2
  /\ raised_in failing_call = Some 2
  /\ run_batch nondet s_fail [0; 1; 2] world0
     = (Raise (SamplerError 2), w_failed)
  /\ fs w_failed = fs w_one.
Proof.
  assert (Hdone : run_batch nondet s_fail [0] world0 = (Ok tt, w_one))
    by (vm_compute; reflexivity).
  assert (Hrun : run_design nondet s_fail 1 w_one
                 = ((run_design nondet s_fail 1 w_one).1, w_failed))
    by (vm_compute; reflexivity).
  assert (Htr : trace w_failed = trace w_one ++ failed_calls)
    by (vm_compute; reflexivity).
  assert (Hev : failed_calls !! 2%nat = Some failing_call)
    by (vm_compute; reflexivity).
  assert (Hstep : is_step failing_call) by (vm_compute; exact I).
  assert (Hraised : raised_in failing_call = Some 2)
    by (vm_compute; reflexivity).
  destruct (sampler_failure_aborts_batch Z.gtb backbone seeded nondet s_fail
              [0] 1 [2] world0 w_one w_failed _ failed_calls failing_call 2
              Hdone Hrun Htr (list_elem_of_lookup_2 _ _ _ Hev) Hstep Hraised)
    as (_ & _ & Hfs & Hbatch).
  split; [exact Hdone|]. split; [exact Hev|].
  split; [vm_compute; reflexivity|]. split; [exact Hraised|].
  split; [exact Hbatch|]. exact Hfs.
Defined.


Lemma loop_runs_when_final_le_initial_witness :
  final_step (inf_conf s_ok) <= t_step_input s_ok
  /\ (1 <= length (timesteps s_ok))%nat.
Proof.
  assert (Hle : final_step (inf_conf s_ok) <= t_step_input s_ok)
    by (vm_compute; discriminate).
  split; [exact Hle|].
  exact (proj1 (loop_runs_when_final_le_initial s_ok Hle)).
Defined.

(** C10, as stated, fails: with [t_step_input = 1] and [final_step = 5]
    the timestep loop has no iteration, and the design ends in the
    [RuntimeError] of stacking an empty list. *)
Lemma no_step_when_final_exceeds_initial :
  ~ (1 <= length (timesteps s_bad))%nat
  /\ omap step_time (trace (run_design nondet s_bad 0 world0).2) = []
  /\ (run_design nondet s_bad 0 world0).1 = Raise RuntimeError.
Proof.
  split; [vm_compute; lia|]. split; vm_compute; reflexivity.
Qed.

End Runs.

(** ** What the script leaves behind, on the small sampler *)

Module DesignRuns.
Import Inference InferenceFacts DesignFacts Demo.

Example skipped_when_run_again :
  (run_design det s_resume 0 w_first).1 = Ok None.
Proof. vm_compute. reflexivity. Qed.

Example resumes_after_two : (resolve_startnum glob s_resume w_two).1 = Ok 2.
Proof. vm_compute. reflexivity. Qed.

Example flat_prefix_runs_all_steps :
  (run_design nondet s_flat 0 world0).1 = Raise FileNotFoundError
  /\ omap step_time (trace (run_design nondet s_flat 0 world0).2) = [3; 2; 1].
Proof. vm_compute. split; reflexivity. Qed.

Lemma design_frame_witness :
  run_design nondet s_ok 0 world0 = (Ok (Some acc_ok), w_ok)
  /\ files (fs w_ok) !! "out/notes.txt" = files (fs world0) !! "out/notes.txt".
Proof.
  assert (Hrun : run_design nondet s_ok 0 world0 = (Ok (Some acc_ok), w_ok))
    by (vm_compute; reflexivity).
  split; [exact Hrun|].
  apply (design_frame Z.gtb backbone seeded nondet s_ok 0 world0 _ w_ok Hrun).
  compute_done.
Defined.

Lemma design_preserves_other_designs_witness :
  0 <> 1
  /\ "out/design_00001.pdb" ∈ design_paths s_ok 1
  /\ files (fs w_ok) !! "out/design_00001.pdb"
     = files (fs world0) !! "out/design_00001.pdb".
Proof.
  assert (Hne : 0 <> 1) by lia.
  assert (Hin : "out/design_00001.pdb" ∈ design_paths s_ok 1)
    by (vm_compute; left).
  assert (Hrun : run_design nondet s_ok 0 world0 = (Ok (Some acc_ok), w_ok))
    by (vm_compute; reflexivity).
  split; [exact Hne|]. split; [exact Hin|].
  exact (design_preserves_other_designs Z.gtb backbone seeded nondet s_ok 0 1
           world0 _ w_ok _ Hne Hin Hrun).
Defined.

Lemma design_names_distinct_witness :
  NoDup (design_paths s_ok 0)
  /\ "out/design_00000.pdb" ∉ design_paths s_ok 1.
Proof.
  destruct (design_names_distinct s_ok 0 1) as [Hnd Hdis].
  split; [exact Hnd|]. apply Hdis; [lia|]. vm_compute. left.
Defined.

Lemma completed_design_files_witness :
  run_design nondet s_ok 0 world0 = (Ok (Some acc_ok), w_ok)
  /\ files (fs w_ok) !! "out/design_00000.trb"
     = Some (TrbFile (plddt_stack acc_ok))
  /\ "out/traj" ∈ dirs (fs w_ok).
Proof.
  assert (Hrun : run_design nondet s_ok 0 world0 = (Ok (Some acc_ok), w_ok))
    by (vm_compute; reflexivity).
  split; [exact Hrun|].
  destruct (completed_design_files Z.gtb backbone seeded nondet s_ok 0
              world0 acc_ok w_ok Hrun)
    as (xyz & sq & bf & _ & Htrb & _ & Htraj & _).
  split; [exact Htrb|]. by apply Htraj.
Defined.

Lemma structure_is_last_step_witness :
  run_design nondet s_ok 0 world0 = (Ok (Some acc_ok), w_ok)
  /\ exists r sq bf,
       last (omap step_result (trace w_ok)) = Some r
       /\ files (fs w_ok) !! "out/design_00000.pdb"
          = Some (PdbFile (backbone (res_x_t r)) sq bf).
Proof.
  assert (Hrun : run_design nondet s_ok 0 world0 = (Ok (Some acc_ok), w_ok))
    by (vm_compute; reflexivity).
  split; [exact Hrun|].
  destruct (structure_is_last_step Z.gtb backbone seeded nondet s_ok 0
              world0 acc_ok w_ok Hrun)
    as (evs & r & sq & bf & Htr & Hlast & Hpdb).
  change (trace w_ok = evs) in Htr. rewrite <- Htr in Hlast.
  exists r, sq, bf. split; [exact Hlast | exact Hpdb].
Defined.

Lemma completed_design_is_skipped_witness :
  cautious (inf_conf s_resume) = true
  /\ run_design det s_resume 0 world0 = (Ok (Some acc_first), w_first)
  /\ run_batch det s_resume [1] w_first = (Ok tt, w_two)
  /\ (run_design det s_resume 0 w_two).1 = Ok None.
Proof.
  assert (Hc : cautious (inf_conf s_resume) = true) by reflexivity.
  assert (Hrun : run_design det s_resume 0 world0
                 = (Ok (Some acc_first), w_first))
    by (vm_compute; reflexivity).
  assert (Hlater : run_batch det s_resume [1] w_first = (Ok tt, w_two))
    by (vm_compute; reflexivity).
  split; [exact Hc|]. split; [exact Hrun|]. split; [exact Hlater|].
  destruct (completed_design_is_skipped Z.gtb backbone seeded det s_resume 0
              world0 acc_first w_first [1] w_two Hc Hrun Hlater) as [_ Hskip].
  by rewrite Hskip.
Defined.

Lemma batch_leaves_every_structure_witness :
  run_batch det s_resume [0; 1] world0 = (Ok tt, w_two)
  /\ exists_in (fs w_two) "out/design_00001.pdb" = true.
Proof.
  assert (Hrun : run_batch det s_resume [0; 1] world0 = (Ok tt, w_two))
    by (vm_compute; reflexivity).
  split; [exact Hrun|].
  apply (batch_leaves_every_structure Z.gtb backbone seeded det s_resume
           [0; 1] world0 w_two Hrun 1).
  right. left.
Defined.

Lemma steps_are_chained_witness :
  exists evs,
    trace (diffusion_loop s_ok [3; 2; 1] (x0 0) seq0 no_steps world0).2
    = trace world0 ++ evs
    /\ chained (x0 0) seq0 1 evs.
Proof.
  apply (steps_are_chained s_ok [3; 2; 1] (x0 0) seq0 no_steps world0
           (diffusion_loop s_ok [3; 2; 1] (x0 0) seq0 no_steps world0).1).
  by destruct (diffusion_loop _ _ _ _ _ _).
Defined.




Lemma resume_start_nonneg_witness :
  design_startnum (inf_conf s_resume) = -1
  /\ exists start,
       resolve_startnum glob s_resume w_two = (Ok start, w_two) /\ 0 <= start.
Proof.
  assert (Hs : design_startnum (inf_conf s_resume) = -1) by reflexivity.
  split; [exact Hs|]. exact (resume_start_nonneg glob s_resume w_two Hs).
Defined.

Lemma resume_ignores_listing_order_witness :
  glob (fs w_two) (output_prefix (inf_conf s_resume) +:+ "*.pdb")
    ≡ₚ glob_rev (fs w_two) (output_prefix (inf_conf s_resume) +:+ "*.pdb")
  /\ resolve_startnum glob s_resume w_two
     = resolve_startnum glob_rev s_resume w_two.
Proof.
  assert (Hperm : glob (fs w_two) (output_prefix (inf_conf s_resume) +:+ "*.pdb")
                  ≡ₚ glob_rev (fs w_two)
                       (output_prefix (inf_conf s_resume) +:+ "*.pdb"))
    by apply Permutation_rev.
  split; [exact Hperm|].
  exact (resume_ignores_listing_order glob glob_rev s_resume w_two Hperm).
Defined.

Lemma scan_reads_back_index_witness :
  suffixes [out_prefix_of s_ok 7 +:+ ".pdb"] = [7]
  /\ suffixes [out_prefix_of s_ok (-7) +:+ ".pdb"] = [].
Proof.
  split.
  - apply (scan_reads_back_index s_ok 7); [lia|].
    vm_compute. repeat constructor; discriminate.
  - apply (scan_reads_back_index s_ok (-7)). lia.
Defined.

Lemma resume_starts_above_listed_witness :
  design_startnum (inf_conf s_resume) = -1
  /\ out_prefix_of s_resume 1 +:+ ".pdb"
       ∈ glob (fs w_two) (output_prefix (inf_conf s_resume) +:+ "*.pdb")
  /\ exists start,
       resolve_startnum glob s_resume w_two = (Ok start, w_two) /\ 1 < start.
Proof.
  assert (Hs : design_startnum (inf_conf s_resume) = -1) by reflexivity.
  assert (Hin : out_prefix_of s_resume 1 +:+ ".pdb"
                  ∈ glob (fs w_two)
                      (output_prefix (inf_conf s_resume) +:+ "*.pdb")).
  { compute_done. }
  split; [exact Hs|]. split; [exact Hin|].
  apply (resume_starts_above_listed glob s_resume w_two 1 Hs); [lia| |exact Hin].
  vm_compute. repeat constructor; discriminate.
Defined.


End DesignRuns.

(** ** The device and the configuration path on small inputs *)

Module StartupRuns.
Import Startup StartupFacts Demo.

Example arch_numbers_of_build :
  arch_numbers int_of_string (get_arch_list cuda_two) = inr [50; 80; 80].
Proof. vm_compute. reflexivity. Qed.

Example no_cuda_gives_cpu :
  get_device_name int_of_string
    {| is_available := false; get_arch_list := ["sm80"];
       device_count := 1; get_device_capability := fun _ => (9, 0) |} None
  = inr (Name "cpu").
Proof. reflexivity. Qed.

Lemma device_index_is_first_capable_witness :
  get_device_name int_of_string cuda_two None = inr (Index 1)
  /\ capability cuda_two 0 < 50 <= capability cuda_two 1.
Proof.
  assert (Hget : get_device_name int_of_string cuda_two None = inr (Index 1))
    by (vm_compute; reflexivity).
  split; [exact Hget|].
  destruct (device_index_is_first_capable int_of_string cuda_two None 1 Hget)
    as (_ & _ & ns & Hns & _ & _ & _ & _ & Hle & Hlt).
  assert (Hns' : ns = [50; 80; 80]).
  { apply arch_numbers_inr in Hns. vm_compute in Hns. by injection Hns. }
  subst ns. split; [apply (Hlt 0); lia | exact Hle].
Defined.

Lemma device_name_raises_on_first_bad_arch_witness :
  get_device_name int_of_string cuda_odd (Some "auto") = inl ArchIndexError.
Proof.
  apply (device_name_raises_on_first_bad_arch int_of_string cuda_odd
           (Some "auto") ArchIndexError).
  split; [by right|]. split; [reflexivity|].
  exists ["sm_80"], "sm80", ["sm_x"]. split; [reflexivity|].
  split; [|reflexivity]. constructor; [|constructor]. by exists 80.
Defined.

Lemma arch_without_underscore_witness :
  arch_number int_of_string "sm80" = inl ArchIndexError.
Proof.
  apply (arch_without_underscore int_of_string "sm80").
  compute_done.
Defined.

Lemma device_name_configured_or_cpu_witness :
  get_device_name int_of_string cuda_two (Some "cuda:1") = inr (Name "cuda:1").
Proof.
  apply (device_name_configured_or_cpu int_of_string cuda_two (Some "cuda:1")
           "cuda:1").
  left. split; [reflexivity | discriminate].
Defined.

Lemma config_path_first_existing_witness :
  get_config_path id join beside_script "." "/opt/rfdiffusion/scripts"
    "/home/user" None
  = "/opt/rfdiffusion/scripts/config/inference".
Proof.
  pose proof (config_path_first_existing id join beside_script "."
                "/opt/rfdiffusion/scripts" "/home/user" None) as H.
  cbv beta iota delta [candidates] in H.
  destruct H as (_ & H2 & _). apply H2; reflexivity.
Defined.

End StartupRuns.
